(** * atrium-jazz: the event page ([src/app/event/[slug]/page.tsx])

    A shallow embedding of the event page of the site: the Eastern-time
    offset helper [getETOffset], the structured-data start and end
    instants, the "More Dates" query and filter, the not-found path of
    [Page] and [generateMetadata].

    The page is TypeScript running on a JavaScript engine.  The engine's
    built-ins the page calls ([Date], [Number], [String.prototype.split],
    [padStart], template literals) are modelled in [Module Js] after
    ECMA-262; the page's own code follows, function by function. *)

From Stdlib Require Import ZArith List String Ascii Bool Lia.
From Stdlib Require Import Sorting.Sorted Sorting.Permutation Sorting.Mergesort Orders.
Import ListNotations.

#[local] Open Scope string_scope.
#[local] Open Scope Z_scope.

(* ===================================================================== *)
(** * ECMAScript built-ins used by the page                               *)
(* ===================================================================== *)

Module Js.

(** ** Numbers

    The page only ever holds integers or [NaN] in a number: clock fields
    read back from a [Date], and the result of [Number] on the pieces of
    a set-time. *)
Inductive num : Type :=
| NaN : num
| Int : Z -> num.

(** A destructured array element: [None] is [undefined]. *)
Definition value := option num.

(** ** Characters and digit strings *)

Definition isDigit (c : ascii) : bool :=
  ((48 <=? nat_of_ascii c) && (nat_of_ascii c <=? 57))%nat.

Definition digitVal (c : ascii) : Z := Z.of_nat (nat_of_ascii c) - 48.

Definition digitChar (d : Z) : ascii := ascii_of_nat (Z.to_nat (48 + d)).

Fixpoint allDigits (s : string) : bool :=
  match s with
  | EmptyString => true
  | String c r => isDigit c && allDigits r
  end.

(** Value of a digit string read left to right, [acc] being the value of
    the digits already consumed. *)
Fixpoint digitsValue (acc : Z) (s : string) : Z :=
  match s with
  | EmptyString => acc
  | String c r => digitsValue (10 * acc + digitVal c) r
  end.

(** [Number(s)] (StringToNumber).  Exact on strings of decimal digits and
    on the empty string, which is [0]; every other string is taken to
    [NaN].  Signs, fractions, exponents, radix prefixes and surrounding
    white space, which ECMAScript also reads as numbers, do not occur in
    an HH:MM set-time. *)
Definition Number (s : string) : num :=
  if allDigits s then Int (digitsValue 0 s) else NaN.

(** Decimal digits of a non-negative integer, most significant first.
    [fuel] bounds the number of digits produced. *)
Fixpoint digitsOf (fuel : nat) (n : Z) (acc : string) : string :=
  match fuel with
  | O => acc
  | S f =>
      let acc' := String (digitChar (n mod 10)) acc in
      if n <? 10 then acc' else digitsOf f (n / 10) acc'
  end.

Definition natString (n : Z) : string :=
  digitsOf (S (Z.to_nat (Z.log2 n))) n "".

(** [Number.prototype.toString()] on the numbers of this model. *)
Definition numToString (x : num) : string :=
  match x with
  | NaN => "NaN"
  | Int z => if z <? 0 then "-" ++ natString (- z) else natString z
  end.

(** A value interpolated in a template literal. *)
Definition interpolate (v : value) : string :=
  match v with
  | None => "undefined"
  | Some x => numToString x
  end.

Fixpoint repeatChar (n : nat) (c : ascii) : string :=
  match n with
  | O => ""
  | S k => String c (repeatChar k c)
  end.

(** [s.padStart(n, c)] for a one-character filler. *)
Definition padStart (n : nat) (c : ascii) (s : string) : string :=
  repeatChar (n - String.length s) c ++ s.

(** [s.split(sep)] for a one-character separator; [cur] is the piece
    read so far. *)
Fixpoint splitAux (sep : ascii) (cur : string) (s : string) : list string :=
  match s with
  | EmptyString => [cur]
  | String c r =>
      if Ascii.eqb c sep then cur :: splitAux sep "" r
      else splitAux sep (cur ++ String c "") r
  end.

Definition split (sep : ascii) (s : string) : list string := splitAux sep "" s.

(** ** Time values (ECMA-262, "Time Values and Time Range") *)

Definition msPerSecond : Z := 1000.
Definition msPerMinute : Z := 60000.
Definition msPerHour : Z := 3600000.
Definition msPerDay : Z := 86400000.

Definition Day (t : Z) : Z := t / msPerDay.
Definition TimeWithinDay (t : Z) : Z := t mod msPerDay.

Definition isLeap (y : Z) : bool :=
  ((y mod 4 =? 0) && negb (y mod 100 =? 0)) || (y mod 400 =? 0).

Definition DaysInYear (y : Z) : Z := if isLeap y then 366 else 365.

Definition DayFromYear (y : Z) : Z :=
  365 * (y - 1970) + (y - 1969) / 4 - (y - 1901) / 100 + (y - 1601) / 400.

(** The year containing day number [d]: the 400-, 100-, 4- and 1-year
    cycles counted from 1 January 1601. *)
Definition YearFromDay (d : Z) : Z :=
  let e := d - DayFromYear 1601 in
  let n400 := e / 146097 in
  let r400 := e mod 146097 in
  let n100 := Z.min (r400 / 36524) 3 in
  let r100 := r400 - n100 * 36524 in
  let n4 := r100 / 1461 in
  let r4 := r100 mod 1461 in
  let n1 := Z.min (r4 / 365) 3 in
  1601 + 400 * n400 + 100 * n100 + 4 * n4 + n1.

Definition YearFromTime (t : Z) : Z := YearFromDay (Day t).

(** Number of days of month [m] (0 = January) in year [y]. *)
Definition DaysInMonth (y m : Z) : Z :=
  if m =? 1 then (if isLeap y then 29 else 28)
  else if (m =? 3) || (m =? 5) || (m =? 8) || (m =? 10) then 30
  else 31.

(** Days of year [y] before month [m] (0 = January). *)
Fixpoint daysBeforeMonthAux (y : Z) (k : nat) : Z :=
  match k with
  | O => 0
  | S j => daysBeforeMonthAux y j + DaysInMonth y (Z.of_nat j)
  end.

Definition DaysBeforeMonth (y m : Z) : Z := daysBeforeMonthAux y (Z.to_nat m).

(** Month (0-based) and day of month (1-based) of the [r]-th day of year
    [y], walking the months from [m]; [fuel] is the number of months left. *)
Fixpoint monthDayAux (fuel : nat) (y m r : Z) : Z * Z :=
  match fuel with
  | O => (m, r + 1)
  | S f =>
      if r <? DaysInMonth y m then (m, r + 1)
      else monthDayAux f y (m + 1) (r - DaysInMonth y m)
  end.

Definition DayWithinYear (t : Z) : Z := Day t - DayFromYear (YearFromTime t).
Definition MonthFromTime (t : Z) : Z :=
  fst (monthDayAux 11 (YearFromTime t) 0 (DayWithinYear t)).
Definition DateFromTime (t : Z) : Z :=
  snd (monthDayAux 11 (YearFromTime t) 0 (DayWithinYear t)).

Definition HourFromTime (t : Z) : Z := (t / msPerHour) mod 24.
Definition MinFromTime (t : Z) : Z := (t / msPerMinute) mod 60.
Definition SecFromTime (t : Z) : Z := (t / msPerSecond) mod 60.
Definition msFromTime (t : Z) : Z := t mod msPerSecond.

Definition MakeTime (h m s ms : Z) : Z :=
  h * msPerHour + m * msPerMinute + s * msPerSecond + ms.

(** [MakeDay(year, month, date)] with a 0-based month that may lie
    outside 0..11 and a 1-based day that may overflow the month. *)
Definition MakeDay (year month date : Z) : Z :=
  let ym := year + month / 12 in
  let mn := month mod 12 in
  DayFromYear ym + DaysBeforeMonth ym mn + date - 1.

Definition MakeDate (day time : Z) : Z := day * msPerDay + time.

Definition maxTime : Z := 8640000000000000.

(** [TimeClip]: [None] is the [NaN] time value. *)
Definition TimeClip (t : Z) : option Z :=
  if Z.abs t <=? maxTime then Some t else None.

(** ** The host's time zone

    ECMA-262 leaves [LocalTZA(t, isUTC)] to the host: the offset of local
    time from UTC in milliseconds, asked either at a UTC time value
    ([isUTC = true]) or at a local one ([isUTC = false]).  The page never
    names a zone for these conversions, so the host is a parameter of
    everything that touches local time. *)
Record Host : Type := { LocalTZA : Z -> bool -> Z }.

Definition LocalTime (h : Host) (t : Z) : Z := t + LocalTZA h t true.
Definition UTC (h : Host) (t : Z) : Z := t - LocalTZA h t false.

(** ** Date objects

    A [Date] holds a time value; [None] is the [NaN] of an Invalid Date. *)
Definition Date := option Z.

(** Reads exactly [n] decimal digits. *)
Fixpoint readDigits (n : nat) (acc : Z) (s : string) : option (Z * string) :=
  match n with
  | O => Some (acc, s)
  | S k =>
      match s with
      | String c r =>
          if isDigit c then readDigits k (10 * acc + digitVal c) r else None
      | EmptyString => None
      end
  end.

Definition readChar (c : ascii) (s : string) : option string :=
  match s with
  | String d r => if Ascii.eqb d c then Some r else None
  | EmptyString => None
  end.

Notation "'let?' x ':=' e 'in' k" :=
  (match e with Some x => k | None => None end)
  (at level 10, x pattern, e at level 100, k at level 200).

(** The time part [THH:mm:ss] of a date-time string without offset, as
    milliseconds within the day.  Hour 24 is accepted only as 24:00:00. *)
Definition parseTimePart (s : string) : option Z :=
  let? s := readChar "T" s in
  let? (h, s) := readDigits 2 0 s in
  let? s := readChar ":" s in
  let? (m, s) := readDigits 2 0 s in
  let? s := readChar ":" s in
  let? (sec, s) := readDigits 2 0 s in
  match s with
  | EmptyString =>
      if (h <=? 23) && (m <=? 59) && (sec <=? 59)
         || (h =? 24) && (m =? 0) && (sec =? 0)
      then Some (MakeTime h m sec 0)
      else None
  | String _ _ => None
  end.

(** The date part [YYYY-MM-DD]: year, month and day, and what follows
    them.  A day of month up to 31 is accepted for every month, as V8
    does; [MakeDay] carries the excess into the next month. *)
Definition readDate (s : string) : option (Z * Z * Z * string) :=
  let? (y, s) := readDigits 4 0 s in
  let? s := readChar "-" s in
  let? (m, s) := readDigits 2 0 s in
  let? s := readChar "-" s in
  let? (d, s) := readDigits 2 0 s in
  if (1 <=? m) && (m <=? 12) && (1 <=? d) && (d <=? 31)
  then Some (y, m, d, s) else None.

(** [Date.parse] on the two forms of the ECMAScript date-time string
    format the page builds: [YYYY-MM-DD], read as UTC midnight, and
    [YYYY-MM-DDTHH:mm:ss], read as local time.  Every other string is
    taken to [NaN].  For a string that starts as a date and goes on with
    [T], as the date-time strings of the page do, this is what the format
    asks for and what V8 does as soon as a clock field is not two digits;
    the other forms engines accept do not start with a calendar date. *)
Definition parse (h : Host) (s : string) : Date :=
  let? (y, m, d, rest) := readDate s in
  let day := MakeDay y (m - 1) d in
  match rest with
  | EmptyString => TimeClip (MakeDate day 0)
  | String _ _ =>
      let? time := parseTimePart rest in
      TimeClip (UTC h (MakeDate day time))
  end.

(** [new Date(year, 0, 1)]: local midnight on 1 January.  A year from 0
    to 99 stands for 1900 + year; a [NaN] year gives an Invalid Date. *)
Definition newDateJan1 (h : Host) (year : num) : Date :=
  match year with
  | NaN => None
  | Int y =>
      let yr := if (0 <=? y) && (y <=? 99) then 1900 + y else y in
      TimeClip (UTC h (MakeDate (MakeDay yr 0 1) (MakeTime 0 0 0 0)))
  end.

(** [new Date(ms)] for an integer number of milliseconds. *)
Definition newDateMs (ms : Z) : Date := TimeClip ms.

Definition getTime (d : Date) : num :=
  match d with None => NaN | Some t => Int t end.

(** The minutes [getTimezoneOffset] reports at time value [t]:
    [(t - LocalTime(t)) / msPerMinute].  Hosts are taken to keep
    whole-minute offsets, so the quotient is exact. *)
Definition tzOffsetAt (h : Host) (t : Z) : Z := (t - LocalTime h t) / msPerMinute.

Definition getTimezoneOffset (h : Host) (d : Date) : num :=
  match d with None => NaN | Some t => Int (tzOffsetAt h t) end.

Definition getFullYear (h : Host) (d : Date) : num :=
  match d with None => NaN | Some t => Int (YearFromTime (LocalTime h t)) end.

Definition getHours (h : Host) (d : Date) : num :=
  match d with None => NaN | Some t => Int (HourFromTime (LocalTime h t)) end.

Definition getMinutes (h : Host) (d : Date) : num :=
  match d with None => NaN | Some t => Int (MinFromTime (LocalTime h t)) end.

(** [x + n] for an integer [n]. *)
Definition numAdd (x : num) (n : Z) : num :=
  match x with NaN => NaN | Int z => Int (z + n) end.

(** [x < y] and [x <= y]: false as soon as one side is [NaN]. *)
Definition numLt (x y : num) : bool :=
  match x, y with Int a, Int b => a <? b | _, _ => false end.

Definition numLe (x y : num) : bool :=
  match x, y with Int a, Int b => a <=? b | _, _ => false end.

(** [d.setMinutes(min)]: the new time value of [d]. *)
Definition setMinutes (h : Host) (d : Date) (min : num) : Date :=
  match d, min with
  | Some u, Int m =>
      let t := LocalTime h u in
      let date :=
        MakeDate (Day t) (MakeTime (HourFromTime t) m (SecFromTime t) (msFromTime t)) in
      TimeClip (UTC h date)
  | _, _ => None
  end.

Definition pad (n : nat) (z : Z) : string := padStart n "0" (natString z).

(** The text of [toISOString] for time value [t].  Years outside
    0..9999 take the expanded six-digit form. *)
Definition isoString (t : Z) : string :=
  let y := YearFromTime t in
  let year :=
    if (0 <=? y) && (y <=? 9999) then pad 4 y
    else (if y <? 0 then "-" else "+") ++ pad 6 (Z.abs y) in
  year ++ "-" ++ pad 2 (MonthFromTime t + 1) ++ "-" ++ pad 2 (DateFromTime t)
       ++ "T" ++ pad 2 (HourFromTime t) ++ ":" ++ pad 2 (MinFromTime t) ++ ":"
       ++ pad 2 (SecFromTime t) ++ "." ++ pad 3 (msFromTime t) ++ "Z".

(** [d.toISOString()]; [None] is the RangeError thrown on an Invalid
    Date. *)
Definition toISOString (d : Date) : option string := option_map isoString d.

End Js.

(* ===================================================================== *)
(** * The records the page reads                                          *)
(* ===================================================================== *)

Import Js.

(** [venue] of [EventWithArtist]. *)
Record Venue : Type := {
  venue_name : string;
  venue_slug : string;
  venue_id : string;
  venue_description : string;
  gMapsUrl : string;
  venue_url : string;
  streetAddress : string;
  addressLocality : string;
  postalCode : string;
  addressRegion : string;
  addressCountry : string
}.

(** [OtherEvent]: an entry of the artist's [events]. *)
Record OtherEvent : Type := {
  other_id : string;
  other_name : string;
  other_slug : string;
  other_dateString : string;
  other_setTimes : list string;
  other_venue_name : string;
  other_venue_slug : string
}.

(** [ArtistWithVideos], with the fields the page selects. *)
Record Artist : Type := {
  artist_id : string;
  artist_name : string;
  youtubeUrls : list string;
  biography : string;
  website : string;
  instagram : string;
  events : list OtherEvent
}.

(** [EventWithArtist].  [logline], [artist] and [setTimes] may be
    absent. *)
Record EventWithArtist : Type := {
  id : string;
  name : string;
  dateString : string;
  url : string;
  logline : option string;
  artist : option Artist;
  venue : Venue;
  performers : list (string * string);
  setTimes : option (list string)
}.

(** ** The stored records

    What the data-fetch layer holds: event rows, each pointing to at most
    one artist row by id, and artist rows. *)
Record EventRow : Type := {
  row_id : string;
  row_slug : string;
  row_name : string;
  row_dateString : string;
  row_url : string;
  row_logline : option string;
  row_artistId : option string;
  row_venue : Venue;
  row_performers : list (string * string);
  row_setTimes : list string
}.

Record ArtistRow : Type := {
  arow_id : string;
  arow_name : string;
  arow_youtubeUrls : list string;
  arow_biography : string;
  arow_website : string;
  arow_instagram : string
}.

Record Db : Type := {
  db_events : list EventRow;
  db_artists : list ArtistRow
}.

(** Ascending order of date strings, as [orderBy: { dateString: 'asc' }]
    asks for; ties may come in any order. *)
Module DateOrder <: Orders.TotalLeBool.

Definition t := OtherEvent.

Definition leb (a b : t) : bool :=
  String.leb (other_dateString a) (other_dateString b).

Definition leb_total (a b : t) : leb a b = true \/ leb b a = true :=
  String.leb_total (other_dateString a) (other_dateString b).

End DateOrder.

Definition byDate (a b : OtherEvent) : Prop := is_true (DateOrder.leb a b).

(** What the page takes from its surroundings: the host's time zone,
    [EVENT_CONFIG.DAYS_AHEAD] of [@/config/constants], a whole number of
    days, [formatInTimeZone] of date-fns-tz ([None] when it throws), and
    the store's [orderBy], known only to return its input rearranged in
    ascending order. *)
Record Env : Type := {
  host : Host;
  DAYS_AHEAD : Z;
  formatInTimeZone : Date -> string -> string -> option string;
  orderByDateAsc : list OtherEvent -> list OtherEvent;
  orderBy_perm : forall l, Permutation l (orderByDateAsc l);
  orderBy_sorted : forall l, Sorted byDate (orderByDateAsc l)
}.

(* ===================================================================== *)
(** * page.tsx                                                            *)
(* ===================================================================== *)

(** [getETOffset] (lines 18-22). *)
Definition getETOffset (h : Host) (date : string) : string :=
  let dateObj := parse h date in
  let isDST :=
    numLt (getTimezoneOffset h dateObj)
          (getTimezoneOffset h (newDateJan1 h (getFullYear h dateObj))) in
  if isDST then "-04:00" else "-05:00".

Definition hasSetTimes (e : EventWithArtist) : option (list string) :=
  match setTimes e with
  | Some (t :: ts) => Some (t :: ts)
  | _ => None
  end.

(** ["startDate"] of the structured data (lines 199-201); [None] when
    [formatInTimeZone] throws. *)
Definition startDate (env : Env) (e : EventWithArtist) : option string :=
  match hasSetTimes e with
  | Some ts =>
      Some (dateString e ++ "T" ++ hd "" ts ++ ":00"
            ++ getETOffset (host env) (dateString e))
  | None =>
      formatInTimeZone env (parse (host env) (dateString e ++ "T00:00:00"))
        "America/New_York" "yyyy-MM-dd'T'HH:mm:ssXXX"
  end.

(** The body of the ["endDate"] closure (lines 204-207), for the last
    set-time [lastSet]. *)
Definition endDateOf (h : Host) (date lastSet : string) : string :=
  let parts := map Number (split ":" lastSet) in
  let hours : value := nth_error parts 0 in
  let minutes : value := nth_error parts 1 in
  let endTime :=
    parse h (date ++ "T" ++ interpolate hours ++ ":" ++ interpolate minutes ++ ":00") in
  let endTime := setMinutes h endTime (numAdd (getMinutes h endTime) 90) in
  date ++ "T" ++ padStart 2 "0" (numToString (getHours h endTime)) ++ ":"
       ++ padStart 2 "0" (numToString (getMinutes h endTime)) ++ ":00"
       ++ getETOffset h date.

(** ["endDate"] of the structured data (lines 202-209); [None] is
    [undefined]. *)
Definition endDate (env : Env) (e : EventWithArtist) : option string :=
  match hasSetTimes e with
  | Some ts => Some (endDateOf (host env) (dateString e) (last ts ""))
  | None => None
  end.

(** ** The "More Dates" query and filter *)

Definition msAhead (env : Env) : Z := DAYS_AHEAD env * 24 * 60 * 60 * 1000.

(** [d.toISOString().split('T')[0]]. *)
Definition isoDay (d : Date) : option string :=
  let? s := toISOString d in Some (hd "" (split "T" s)).

(** The [where] of [artist.events] (lines 145-153). *)
Record EventsWhere : Type := {
  gte : string;
  lt : string;
  notSlug : string
}.

(** The [where] object the page builds at instant [now] for [slug];
    [None] when [toISOString] throws. *)
Definition eventsWhere (env : Env) (now : Z) (slug : string) : option EventsWhere :=
  let? today := isoDay (newDateMs now) in
  let? cutoffDay := isoDay (newDateMs (now + msAhead env)) in
  Some {| gte := today; lt := cutoffDay; notSlug := slug |}.

Definition matchesWhere (w : EventsWhere) (e : OtherEvent) : bool :=
  String.leb (gte w) (other_dateString e)
  && String.ltb (other_dateString e) (lt w)
  && negb (String.eqb (other_slug e) (notSlug w)).

(** The [select] of [artist.events] on one stored event. *)
Definition selectOther (r : EventRow) : OtherEvent :=
  {| other_id := row_id r;
     other_name := row_name r;
     other_slug := row_slug r;
     other_dateString := row_dateString r;
     other_setTimes := row_setTimes r;
     other_venue_name := venue_name (row_venue r);
     other_venue_slug := venue_slug (row_venue r) |}.

Definition belongsTo (aid : string) (r : EventRow) : bool :=
  match row_artistId r with
  | Some a => String.eqb a aid
  | None => false
  end.

(** All stored events of artist [aid]. *)
Definition artistEvents (db : Db) (aid : string) : list OtherEvent :=
  map selectOther (filter (belongsTo aid) (db_events db)).

(** [artist.events] as the query returns it (lines 131-157): the
    candidates that satisfy [where], in the store's ascending order. *)
Definition queryEvents (env : Env) (w : EventsWhere) (candidates : list OtherEvent)
  : list OtherEvent :=
  orderByDateAsc env (filter (matchesWhere w) candidates).

(** The predicate of the "More Dates" filter (lines 336-340). *)
Definition withinCutoff (env : Env) (now : Z) (event : OtherEvent) : bool :=
  let eventDate := parse (host env) (other_dateString event) in
  let cutoffDate := newDateMs (now + msAhead env) in
  numLe (getTime eventDate) (getTime cutoffDate).

Definition moreDatesFilter (env : Env) (now : Z) (evs : list OtherEvent)
  : list OtherEvent :=
  filter (withinCutoff env now) evs.

(** The Event Window Filter end to end: the [where] and [orderBy] of the
    query, then the filter of the "More Dates" section.  The clock is
    read several times during one render; the readings are taken at the
    one instant [now]. *)
Definition eventWindow (env : Env) (now : Z) (slug : string)
  (candidates : list OtherEvent) : option (list OtherEvent) :=
  let? w := eventsWhere env now slug in
  Some (moreDatesFilter env now (queryEvents env w candidates)).

(** ** Effects of a request

    A request reads the store through [prisma.event.findUnique] and ends
    by returning, by [notFound()], or by an uncaught exception.  The
    queries sent are logged in order. *)
Inductive Query : Type :=
| FindUniqueEvent (slug : string).

Inductive Outcome (A : Type) : Type :=
| Returned (a : A)
| NotFound
| Thrown.

Arguments Returned {A} a.
Arguments NotFound {A}.
Arguments Thrown {A}.

Definition M (A : Type) : Type := Db -> list Query -> Outcome A * list Query.

Definition ret {A : Type} (a : A) : M A := fun _ log => (Returned a, log).

Definition bind {A B : Type} (m : M A) (k : A -> M B) : M B :=
  fun db log =>
    match m db log with
    | (Returned a, log') => k a db log'
    | (NotFound, log') => (NotFound, log')
    | (Thrown, log') => (Thrown, log')
    end.

Notation "x <- m ;; k" := (bind m (fun x => k))
  (at level 61, m at next level, right associativity).

(** [notFound()] of next/navigation: never returns. *)
Definition notFound {A : Type} : M A := fun _ log => (NotFound, log).

(** A value whose computation may throw. *)
Definition orThrow {A : Type} (o : option A) : M A :=
  fun _ log => match o with Some a => (Returned a, log) | None => (Thrown, log) end.

(** The stored event with a given slug, if any. *)
Definition lookupEvent (db : Db) (slug : string) : option EventRow :=
  find (fun r => String.eqb (row_slug r) slug) (db_events db).

(** [prisma.event.findUnique({ where: { slug }, select })]: the stored
    event with that slug seen through [select], or [null]; one query. *)
Definition findUnique {A : Type} (slug : string) (select : Db -> EventRow -> A)
  : M (option A) :=
  fun db log =>
    (Returned (option_map (select db) (lookupEvent db slug)),
     (log ++ [FindUniqueEvent slug])%list).

(** ** generateMetadata (lines 71-110) *)

Record OpenGraph : Type := { og_title : string; og_description : string; og_url : string }.
Record Twitter : Type := { card : string; tw_title : string; tw_description : string }.

(** [Metadata]; the object [{}] has every field absent. *)
Record Metadata : Type := {
  title : option string;
  description : option string;
  openGraph : option OpenGraph;
  twitter : option Twitter
}.

Definition emptyMetadata : Metadata :=
  {| title := None; description := None; openGraph := None; twitter := None |}.

(** What the metadata query selects. *)
Record MetaEvent : Type := {
  meta_name : string;
  meta_logline : option string;
  meta_artist_name : option string;
  meta_venue_name : string
}.

Definition findArtist (db : Db) (aid : option string) : option ArtistRow :=
  match aid with
  | Some a => find (fun r => String.eqb (arow_id r) a) (db_artists db)
  | None => None
  end.

Definition selectMeta (db : Db) (r : EventRow) : MetaEvent :=
  {| meta_name := row_name r;
     meta_logline := row_logline r;
     meta_artist_name := option_map arow_name (findArtist db (row_artistId r));
     meta_venue_name := venue_name (row_venue r) |}.

(** [a || b] on an optional string: [null], [undefined] and the empty
    string are falsy. *)
Definition orElse (a : option string) (b : string) : string :=
  match a with
  | Some x => if String.eqb x "" then b else x
  | None => b
  end.

(** [event.logline || `Join ${event.artist?.name || 'us'} at ...`]. *)
Definition describe (logline artistName : option string) (venueName : string) : string :=
  orElse logline
    ("Join " ++ orElse artistName "us" ++ " at " ++ venueName
     ++ " for an unforgettable jazz experience.").

Definition generateMetadata (slug : string) : M Metadata :=
  event <- findUnique slug selectMeta ;;
  match event with
  | None => ret emptyMetadata
  | Some event =>
      let t := meta_name event ++ " at " ++ meta_venue_name event ++ " | Atrium Jazz" in
      let d := describe (meta_logline event) (meta_artist_name event) (meta_venue_name event) in
      ret {| title := Some t;
             description := Some d;
             openGraph := Some {| og_title := t; og_description := d;
                                  og_url := "https://www.atriumjazz.com/event/" ++ slug |};
             twitter := Some {| card := "summary_large_image";
                                tw_title := t; tw_description := d |} |}
  end.

(** ** Page (lines 112-346) *)

(** The page query's [select] on the stored event (lines 117-185). *)
Definition selectPage (env : Env) (w : EventsWhere) (db : Db) (r : EventRow)
  : EventWithArtist :=
  {| id := row_id r;
     name := row_name r;
     dateString := row_dateString r;
     url := row_url r;
     logline := row_logline r;
     artist :=
       option_map
         (fun a =>
            {| artist_id := arow_id a;
               artist_name := arow_name a;
               youtubeUrls := arow_youtubeUrls a;
               biography := arow_biography a;
               website := arow_website a;
               instagram := arow_instagram a;
               events := queryEvents env w (artistEvents db (arow_id a)) |})
         (findArtist db (row_artistId r));
     venue := row_venue r;
     performers := row_performers r;
     setTimes := Some (row_setTimes r) |}.

(** The structured data handed to [JsonLd] (lines 194-234), without its
    constant fields and the postal address. *)
Record JsonLd : Type := {
  ld_name : string;
  ld_description : string;
  ld_startDate : string;
  ld_endDate : option string;
  ld_performer : option string
}.

(** What the page renders: the structured data and the list given to
    [ShowsList], absent when the "More Dates" section is not shown. *)
Record View : Type := {
  jsonLd : JsonLd;
  moreDates : option (list OtherEvent)
}.

Definition structuredData (env : Env) (event : EventWithArtist) : option JsonLd :=
  let? start := startDate env event in
  Some {| ld_name := name event;
          ld_description :=
            describe (logline event) (option_map artist_name (artist event))
              (venue_name (venue event));
          ld_startDate := start;
          ld_endDate := endDate env event;
          ld_performer := option_map artist_name (artist event) |}.

(** The "More Dates" section (lines 333-342). *)
Definition moreDatesSection (env : Env) (now : Z) (event : EventWithArtist)
  : option (list OtherEvent) :=
  match artist event with
  | Some a =>
      match events a with
      | [] => None
      | _ :: _ => Some (moreDatesFilter env now (events a))
      end
  | None => None
  end.

Definition Page (env : Env) (now : Z) (slug : string) : M View :=
  w <- orThrow (eventsWhere env now slug) ;;
  event <- findUnique slug (selectPage env w) ;;
  match event with
  | None => notFound
  | Some event =>
      ld <- orThrow (structuredData env event) ;;
      ret {| jsonLd := ld; moreDates := moreDatesSection env now event |}
  end.

(* ===================================================================== *)
(** * Concrete surroundings                                               *)
(* ===================================================================== *)

Module DateSort := Mergesort.Sort DateOrder.

(** A host on a fixed offset of [minutes] east of UTC; [fixedHost 0] is a
    server on UTC. *)
Definition fixedHost (minutes : Z) : Host :=
  {| LocalTZA := fun _ _ => minutes * msPerMinute |}.

Definition WeekDay (day : Z) : Z := (day + 4) mod 7.

(** The first Sunday on or after day number [d]. *)
Definition sundayOnOrAfter (d : Z) : Z := d + (7 - WeekDay d) mod 7.

(** A host on America/New_York, by the rule in force since 2007 applied
    to every year: daylight time from 02:00 on the second Sunday of March
    to 02:00 on the first Sunday of November.  A local time skipped in
    March is read on standard time, one repeated in November on daylight
    time. *)
Definition easternTZA (t : Z) (isUTC : bool) : Z :=
  let std := -5 * msPerHour in
  let dst := -4 * msPerHour in
  let y := YearFromTime (if isUTC then t + std else t) in
  let march := (sundayOnOrAfter (MakeDay y 2 1) + 7) * msPerDay in
  let november := sundayOnOrAfter (MakeDay y 10 1) * msPerDay in
  let inDst :=
    if isUTC
    then (march + 2 * msPerHour - std <=? t) && (t <? november + 2 * msPerHour - dst)
    else (march + 3 * msPerHour <=? t) && (t <? november + 2 * msPerHour) in
  if inDst then dst else std.

Definition easternHost : Host := {| LocalTZA := easternTZA |}.

(** A host on Australia/Sydney, by the rule in force since 2008: daylight
    time (UTC+11) until 03:00 on the first Sunday of April and again from
    02:00 on the first Sunday of October. *)
Definition sydneyTZA (t : Z) (isUTC : bool) : Z :=
  let std := 10 * msPerHour in
  let dst := 11 * msPerHour in
  let y := YearFromTime (if isUTC then t + std else t) in
  let april := sundayOnOrAfter (MakeDay y 3 1) * msPerDay in
  let october := sundayOnOrAfter (MakeDay y 9 1) * msPerDay in
  let inStd :=
    if isUTC
    then (april + 3 * msPerHour - dst <=? t) && (t <? october + 2 * msPerHour - std)
    else (april + 3 * msPerHour <=? t) && (t <? october + 3 * msPerHour) in
  if inStd then std else dst.

Definition sydneyHost : Host := {| LocalTZA := sydneyTZA |}.

(** [formatInTimeZone] for the one zone and pattern the page passes:
    the instant on the New York clock, with its offset.  It throws on an
    Invalid Date. *)
Definition formatNewYork (d : Date) (zone pattern : string) : option string :=
  let? t := d in
  let tza := easternTZA t true in
  let l := t + tza in
  Some (pad 4 (YearFromTime l) ++ "-" ++ pad 2 (MonthFromTime l + 1) ++ "-"
        ++ pad 2 (DateFromTime l) ++ "T" ++ pad 2 (HourFromTime l) ++ ":"
        ++ pad 2 (MinFromTime l) ++ ":" ++ pad 2 (SecFromTime l)
        ++ (if tza =? -4 * msPerHour then "-04:00" else "-05:00")).

(** The site as deployed on host [h] with a look-ahead of [days]. *)
Definition siteOn (h : Host) (days : Z) : Env :=
  {| host := h;
     DAYS_AHEAD := days;
     formatInTimeZone := formatNewYork;
     orderByDateAsc := DateSort.sort;
     orderBy_perm := DateSort.Permuted_sort;
     orderBy_sorted := DateSort.Sorted_sort |}.

(** ** The header date and the location link *)

(** Weekday and month names of the en-US locale; weekday 0 is Sunday,
    month 0 January. *)
Definition weekdayLong (w : Z) : string :=
  nth (Z.to_nat w)
    ["Sunday"; "Monday"; "Tuesday"; "Wednesday"; "Thursday"; "Friday"; "Saturday"] "".

Definition monthShort (m : Z) : string :=
  nth (Z.to_nat m)
    ["Jan"; "Feb"; "Mar"; "Apr"; "May"; "Jun"; "Jul"; "Aug"; "Sep"; "Oct"; "Nov"; "Dec"]
    "".

(** [d.toLocaleDateString('en-US', { weekday: 'long', month: 'short',
    day: 'numeric', timeZone: 'UTC' })]: the UTC day of [d] as in
    "Saturday, Jun 14". *)
Definition toLocaleDateStringUTC (d : Date) : string :=
  match d with
  | None => "Invalid Date"
  | Some t =>
      weekdayLong (WeekDay (Day t)) ++ ", " ++ monthShort (MonthFromTime t)
      ++ " " ++ natString (DateFromTime t)
  end.

(** The date shown in the header (lines 245-250). *)
Definition headerDate (h : Host) (event : EventWithArtist) : string :=
  toLocaleDateStringUTC (parse h (dateString event)).

(** The characters [encodeURIComponent] leaves as they are: letters,
    digits and [- _ . ! ~ * ' ( )]. *)
Definition isUnreserved (c : ascii) : bool :=
  let n := nat_of_ascii c in
  ((65 <=? n) && (n <=? 90) || (97 <=? n) && (n <=? 122)
   || (48 <=? n) && (n <=? 57))%nat
  || existsb (Ascii.eqb c) ["-"; "_"; "."; "!"; "~"; "*"; "'"; "("; ")"]%char.

Definition hexChar (n : nat) : ascii :=
  if (n <? 10)%nat then ascii_of_nat (48 + n) else ascii_of_nat (55 + n).

(** [%XX] for one byte. *)
Definition percentByte (c : ascii) : string :=
  String "%" (String (hexChar (nat_of_ascii c / 16))
                (String (hexChar (nat_of_ascii c mod 16)) "")).

(** [encodeURIComponent(s)], a string being the bytes of its UTF-8
    text: every byte outside the unreserved characters becomes [%XX]. *)
Fixpoint encodeURIComponent (s : string) : string :=
  match s with
  | EmptyString => ""
  | String c r =>
      (if isUnreserved c then String c "" else percentByte c)
      ++ encodeURIComponent r
  end.

(** The ["url"] of ["location"] (line 215); an absent [gMapsUrl] is the
    empty string. *)
Definition locationUrl (v : Venue) : string :=
  if String.eqb (gMapsUrl v) "" then
    "https://maps.google.com/?q=" ++ encodeURIComponent (venue_name v)
  else gMapsUrl v.

(** ** Sample records *)

Definition smalls : Venue :=
  {| venue_name := "Smalls"; venue_slug := "smalls"; venue_id := "v1";
     venue_description := "A basement club in the West Village.";
     gMapsUrl := ""; venue_url := "https://www.smallslive.com";
     streetAddress := "183 W 10th St"; addressLocality := "New York";
     postalCode := "10014"; addressRegion := "NY"; addressCountry := "US" |}.

(** An event at Smalls on [date] with the given set-times and no artist. *)
Definition eventOn (date : string) (times : option (list string)) : EventWithArtist :=
  {| id := "e1"; name := "Late Session"; dateString := date;
     url := "https://tickets.example/e1"; logline := None; artist := None;
     venue := smalls; performers := []; setTimes := times |}.

(** An entry of an artist's events with the given slug and date. *)
Definition otherOn (slug date : string) : OtherEvent :=
  {| other_id := slug; other_name := slug; other_slug := slug;
     other_dateString := date; other_setTimes := [];
     other_venue_name := "Smalls"; other_venue_slug := "smalls" |}.

(** A store with one event and no artist. *)
Definition sampleDb : Db :=
  {| db_events :=
       [ {| row_id := "e1"; row_slug := "late-session"; row_name := "Late Session";
            row_dateString := "2025-06-14"; row_url := "https://tickets.example/e1";
            row_logline := None; row_artistId := None; row_venue := smalls;
            row_performers := []; row_setTimes := ["19:30"; "21:30"] |} ];
     db_artists := [] |}.

(** The stored event of an artist's date at Smalls. *)
Definition rowOn (slug date : string) (times : list string) : EventRow :=
  {| row_id := slug; row_slug := slug; row_name := slug; row_dateString := date;
     row_url := "https://tickets.example/" ++ slug; row_logline := None;
     row_artistId := Some "a1"; row_venue := smalls; row_performers := [];
     row_setTimes := times |}.

(** A store with one artist and her three dates of [scenario] below. *)
Definition clubDb : Db :=
  {| db_events :=
       [ rowOn "summer-set" "2025-07-24" ["19:30"];
         rowOn "late-session" "2025-06-14" ["22:30"; "23:15"];
         rowOn "village-set" "2025-06-24" ["19:30"; "21:30"] ];
     db_artists :=
       [ {| arow_id := "a1"; arow_name := "Ada Quartet"; arow_youtubeUrls := [];
            arow_biography := ""; arow_website := ""; arow_instagram := "" |} ] |}.

(** 14 June 2025, 15:00 UTC. *)
Definition sampleNow : Z := 1749913200000.

(** The site on a New York host with a look-ahead of thirty days. *)
Definition sampleEnv : Env := siteOn easternHost 30.

(** Two events of the artist of "late-session": one a week before
    [sampleNow], one on the day the look-ahead ends. *)
Definition outsideWindow : list OtherEvent :=
  [otherOn "last-week" "2025-06-07"; otherOn "closing-night" "2025-07-14"].

(** The scenario of the specification at [sampleNow]: events today, in
    ten days and in forty days. *)
Definition scenario : list OtherEvent :=
  [otherOn "late-session" "2025-06-14"; otherOn "village-set" "2025-06-24";
   otherOn "summer-set" "2025-07-24"].

(* ===================================================================== *)
(** * Notions used to state the properties                                *)
(* ===================================================================== *)

(** A string naming a day of the calendar: [YYYY-MM-DD] with the day
    inside its month. *)
Definition isCalendarDate (s : string) : bool :=
  match readDate s with
  | Some (y, m, d, EmptyString) => d <=? DaysInMonth y (m - 1)
  | _ => false
  end.

(** The day number of a date string, and the local time value
    [minutes] after midnight of that day. *)
Definition dayNumber (date : string) : Z :=
  match readDate date with
  | Some (y, m, d, _) => MakeDay y (m - 1) d
  | None => 0
  end.

Definition localClock (date : string) (minutes : Z) : Z :=
  MakeDate (dayNumber date) (minutes * msPerMinute).

(** Midnight of a date on the clock of host [h], as a [Date]. *)
Definition localMidnight (h : Host) (date : string) : Date :=
  TimeClip (UTC h (localClock date 0)).

(** The set-time [HH:MM] of hour [h] and minute [m]. *)
Definition clockString (h m : Z) : string := pad 2 h ++ ":" ++ pad 2 m.

(** A UTC offset [+HH:MM] or [-HH:MM] and nothing after it. *)
Definition isOffset (s : string) : bool :=
  match s with
  | String sign s =>
      (Ascii.eqb sign "+" || Ascii.eqb sign "-")
      && match (let? (h, s) := readDigits 2 0 s in
                let? s := readChar ":" s in
                let? (m, s) := readDigits 2 0 s in
                Some ((h <=? 23) && (m <=? 59) && String.eqb s ""))
         with Some b => b | None => false end
  | EmptyString => false
  end.

(** [THH:mm:ss] with two-digit fields in range, then an offset. *)
Definition isClockAndOffset (s : string) : bool :=
  match (let? s := readChar "T" s in
         let? (h, s) := readDigits 2 0 s in
         let? s := readChar ":" s in
         let? (mi, s) := readDigits 2 0 s in
         let? s := readChar ":" s in
         let? (sec, s) := readDigits 2 0 s in
         Some ((h <=? 23) && (mi <=? 59) && (sec <=? 59) && isOffset s))
  with Some b => b | None => false end.

(** An ISO-8601 instant with explicit offset, [YYYY-MM-DDTHH:mm:ss+HH:MM]:
    a day of the calendar, a clock of two-digit fields, an offset. *)
Definition isISOInstant (s : string) : bool :=
  match readDate s with
  | Some (y, m, d, rest) => (d <=? DaysInMonth y (m - 1)) && isClockAndOffset rest
  | None => false
  end.

(** Ascending order of the days the date strings name. *)
Definition byDay (a b : OtherEvent) : Prop :=
  dayNumber (other_dateString a) <= dayNumber (other_dateString b).

(** [l1] is [l2] with some elements left out, the others in place. *)
Inductive Subseq {A : Type} : list A -> list A -> Prop :=
| Subseq_nil : Subseq [] []
| Subseq_skip (x : A) (l1 l2 : list A) : Subseq l1 l2 -> Subseq l1 (x :: l2)
| Subseq_keep (x : A) (l1 l2 : list A) : Subseq l1 l2 -> Subseq (x :: l1) (x :: l2).

Definition hasDate (d : string) (e : OtherEvent) : bool :=
  String.eqb (other_dateString e) d.

(** The UTC calendar day of time value [t] as the page writes it:
    [new Date(t).toISOString().split('T')[0]]. *)
Definition utcDay (t : Z) : string := hd "" (split "T" (isoString t)).

(** A time value the date range can hold. *)
Definition inTimeRange (t : Z) : Prop := Z.abs t <= maxTime.

(** Local time value [tl] is an ordinary time on host [h]: it is the
    local reading of the instant it converts to, and that instant is in
    range. *)
Definition keepsLocal (h : Host) (tl : Z) : Prop :=
  LocalTime h (UTC h tl) = tl /\ inTimeRange (UTC h tl).

(** A day of the calendar: month 1..12, day inside the month. *)
Definition validYMD (y m d : Z) : Prop :=
  1 <= m <= 12 /\ 1 <= d <= DaysInMonth y (m - 1).

(** A number that grows with the date: year first, then month, then
    day. *)
Definition dateKey (y m d : Z) : Z := (y * 100 + m) * 100 + d.

(** The text [YYYY-MM-DD] of a date. *)
Definition dateText (y m d : Z) : string :=
  pad 4 y ++ "-" ++ pad 2 m ++ "-" ++ pad 2 d.

(** Time values of the years 0000 to 9999, whose [toISOString] starts
    with a four-digit year. *)
Definition inFourDigitYears (t : Z) : Prop :=
  -62167219200000 <= t < 253402300800000.

(** Character [c] does not occur in [s]. *)
Fixpoint lacks (c : ascii) (s : string) : bool :=
  match s with
  | EmptyString => true
  | String d r => negb (Ascii.eqb d c) && lacks c r
  end.

(** Midnight UTC of a date, as a time value. *)
Definition utcMidnight (date : string) : Z := dayNumber date * msPerDay.

(** The instant [getETOffset] compares with: local midnight on
    1 January of the local year of time value [t]. *)
Definition jan1Local (h : Host) (t : Z) : Z :=
  let y := YearFromTime (LocalTime h t) in
  let yr := if (0 <=? y) && (y <=? 99) then 1900 + y else y in
  UTC h (MakeDate (MakeDay yr 0 1) (MakeTime 0 0 0 0)).

(** The days on which daylight time begins and ends on the New York
    host in year [y]: the second Sunday of March and the first Sunday of
    November. *)
Definition dstStartDay (y : Z) : Z := sundayOnOrAfter (MakeDay y 2 1) + 7.
Definition dstEndDay (y : Z) : Z := sundayOnOrAfter (MakeDay y 10 1).

(** A character a query value may hold as it is: unreserved, or part of
    a [%XX] escape. *)
Definition isQuerySafe (c : ascii) : bool :=
  isUnreserved c || Ascii.eqb c "%".

Fixpoint allChars (f : ascii -> bool) (s : string) : bool :=
  match s with
  | EmptyString => true
  | String c r => f c && allChars f r
  end.

Definition hexVal (c : ascii) : nat :=
  let n := nat_of_ascii c in
  if (n <? 58)%nat then n - 48 else n - 55.

(** Reads the escapes of [encodeURIComponent] back into bytes. *)
Fixpoint decodeEscapes (fuel : nat) (s : string) : string :=
  match fuel with
  | O => ""
  | S f =>
      match s with
      | EmptyString => ""
      | String c r =>
          if Ascii.eqb c "%" then
            match r with
            | String a (String b r') =>
                String (ascii_of_nat (16 * hexVal a + hexVal b)) (decodeEscapes f r')
            | _ => ""
            end
          else String c (decodeEscapes f r)
      end
  end.

(** The event window in the words of the specification: the events dated
    no later than [now] plus the horizon, the viewed one left out, in
    the order given. *)
Definition specWindow (env : Env) (now : Z) (slug : string)
  (cands : list OtherEvent) : list OtherEvent :=
  filter (fun e => withinCutoff env now e && negb (String.eqb (other_slug e) slug))
    cands.

(* ===================================================================== *)
(** * Properties                                                          *)
(* ===================================================================== *)

(** ** Lists *)

Lemma Subseq_filter {A : Type} (f : A -> bool) (l : list A) :
  Subseq (filter f l) l.
Proof.
  induction l as [|x l IH]; simpl.
  - constructor.
  - destruct (f x); now constructor.
Qed.

Lemma filter_filter_comm {A : Type} (f g : A -> bool) (l : list A) :
  filter f (filter g l) = filter g (filter f l).
Proof.
  induction l as [|x l IH]; simpl; [reflexivity|].
  destruct (g x) eqn:Hg, (f x) eqn:Hf; simpl; rewrite ?Hg, ?Hf, IH; reflexivity.
Qed.

Lemma filter_constant {A : Type} (f : A -> bool) (b : bool) (l : list A) :
  Forall (fun x => f x = b) l -> filter f l = if b then l else [].
Proof.
  induction 1 as [|x l Hx _ IH]; simpl.
  - now destruct b.
  - rewrite Hx, IH. now destruct b.
Qed.

(** ** Order of strings *)

Lemma ascii_compare_refl (c : ascii) : Ascii.compare c c = Eq.
Proof. unfold Ascii.compare. apply N.compare_refl. Qed.

Lemma string_compare_refl (s : string) : String.compare s s = Eq.
Proof.
  induction s as [|c s IH]; simpl; [reflexivity|].
  now rewrite ascii_compare_refl.
Qed.

Lemma ascii_compare_lt_trans (a b c : ascii) :
  Ascii.compare a b = Lt -> Ascii.compare b c = Lt -> Ascii.compare a c = Lt.
Proof.
  unfold Ascii.compare. rewrite !N.compare_lt_iff. apply N.lt_trans.
Qed.

Lemma string_compare_lt_trans (s1 : string) :
  forall s2 s3,
    String.compare s1 s2 = Lt -> String.compare s2 s3 = Lt ->
    String.compare s1 s3 = Lt.
Proof.
  induction s1 as [|a s1 IH]; intros [|b s2] [|c s3]; simpl;
    try discriminate; try reflexivity.
  destruct (Ascii.compare a b) eqn:Hab; try discriminate;
    destruct (Ascii.compare b c) eqn:Hbc; try discriminate; intros H12 H23.
  - apply Ascii.compare_eq_iff in Hab, Hbc. subst.
    rewrite ascii_compare_refl. eauto.
  - apply Ascii.compare_eq_iff in Hab. subst. now rewrite Hbc.
  - apply Ascii.compare_eq_iff in Hbc. subst. now rewrite Hab.
  - now rewrite (ascii_compare_lt_trans _ _ _ Hab Hbc).
Qed.

Lemma string_leb_iff (s1 s2 : string) :
  String.leb s1 s2 = true <-> String.compare s1 s2 = Lt \/ s1 = s2.
Proof.
  unfold String.leb. split.
  - destruct (String.compare s1 s2) eqn:H; try discriminate; intros _.
    + right. now apply String.compare_eq_iff.
    + now left.
  - intros [H| ->]; [now rewrite H | now rewrite string_compare_refl].
Qed.

Lemma string_leb_trans (s1 s2 s3 : string) :
  String.leb s1 s2 = true -> String.leb s2 s3 = true -> String.leb s1 s3 = true.
Proof.
  rewrite !string_leb_iff. intros [H12| ->] [H23| ->]; auto.
  left. eapply string_compare_lt_trans; eassumption.
Qed.

Lemma byDate_trans : Relations_1.Transitive byDate.
Proof. intros a b c. apply string_leb_trans. Qed.

Lemma Sorted_filter_date (f : OtherEvent -> bool) (l : list OtherEvent) :
  Sorted byDate l -> Sorted byDate (filter f l).
Proof.
  intros H. apply Sorted_StronglySorted in H; [|exact byDate_trans].
  apply StronglySorted_Sorted.
  induction H as [|x l Hl IH Hx]; simpl; [constructor|].
  destruct (f x); [|exact IH].
  constructor; [exact IH|].
  rewrite Forall_forall in *. intros y Hy.
  apply filter_In in Hy. now apply Hx.
Qed.

(** ** The query arguments *)

Lemma TimeClip_inRange (t : Z) : inTimeRange t -> TimeClip t = Some t.
Proof.
  unfold inTimeRange, TimeClip. intros H.
  now apply Z.leb_le in H; rewrite H.
Qed.

Lemma isoDay_inRange (t : Z) :
  inTimeRange t -> isoDay (newDateMs t) = Some (utcDay t).
Proof.
  intros H. unfold isoDay, newDateMs. now rewrite TimeClip_inRange.
Qed.

Lemma eventsWhere_inRange (env : Env) (now : Z) (slug : string) :
  inTimeRange now -> inTimeRange (now + msAhead env) ->
  eventsWhere env now slug =
    Some {| gte := utcDay now; lt := utcDay (now + msAhead env); notSlug := slug |}.
Proof.
  intros H1 H2. unfold eventsWhere. now rewrite !isoDay_inRange.
Qed.

Lemma eventsWhere_notSlug (env : Env) (now : Z) (slug : string) (w : EventsWhere) :
  eventsWhere env now slug = Some w -> notSlug w = slug.
Proof.
  unfold eventsWhere.
  destruct (isoDay (newDateMs now)); [|discriminate].
  destruct (isoDay (newDateMs (now + msAhead env))); [|discriminate].
  now intros [= <-].
Qed.

(** ** The query result *)

Lemma queryEvents_In (env : Env) (w : EventsWhere) (cands : list OtherEvent)
  (e : OtherEvent) :
  In e (queryEvents env w cands) <-> In e cands /\ matchesWhere w e = true.
Proof.
  unfold queryEvents. rewrite <- filter_In. split; intros H.
  - eapply Permutation_in; [apply Permutation_sym, orderBy_perm | exact H].
  - eapply Permutation_in; [apply orderBy_perm | exact H].
Qed.

Lemma matchesWhere_slug (w : EventsWhere) (e : OtherEvent) :
  matchesWhere w e = true -> other_slug e <> notSlug w.
Proof.
  unfold matchesWhere. rewrite !andb_true_iff, negb_true_iff.
  intros [_ H]. now apply String.eqb_neq.
Qed.

Lemma window_excludes_slug (env : Env) (now : Z) (w : EventsWhere)
  (cands : list OtherEvent) :
  Forall (fun e => other_slug e <> notSlug w)
    (moreDatesFilter env now (queryEvents env w cands)).
Proof.
  apply Forall_forall. intros e He.
  apply filter_In in He. destruct He as [He _].
  apply queryEvents_In in He. now apply matchesWhere_slug.
Qed.

(** The list the page renders under "More Dates" is the event window of
    the artist's stored events. *)
Lemma Page_moreDates (env : Env) (now : Z) (slug : string) (db : Db)
  (log log' : list Query) (v : View) (out : list OtherEvent) :
  Page env now slug db log = (Returned v, log') ->
  moreDates v = Some out ->
  exists aid, eventWindow env now slug (artistEvents db aid) = Some out.
Proof.
  unfold Page, bind, orThrow, findUnique, eventWindow.
  destruct (eventsWhere env now slug) as [w|]; [|discriminate].
  destruct (lookupEvent db slug) as [r|]; simpl; [|discriminate].
  destruct (structuredData env (selectPage env w db r)); simpl; [|discriminate].
  unfold ret. intros [= <- _]. simpl.
  unfold moreDatesSection. simpl.
  destruct (findArtist db (row_artistId r)) as [a|]; simpl; [|discriminate].
  destruct (queryEvents env w (artistEvents db (arow_id a))) eqn:Hq; [discriminate|].
  intros [= <-]. exists (arow_id a). now rewrite Hq.
Qed.

(* ===================================================================== *)
(** * Dates and clock strings                                             *)
(* ===================================================================== *)

(** ** Checking a property on a finite range by evaluation *)

Lemma forallb_range (P : Z -> bool) (n : nat) :
  forallb P (map Z.of_nat (seq 0 n)) = true ->
  forall z, 0 <= z < Z.of_nat n -> P z = true.
Proof.
  intros H z Hz. rewrite forallb_forall in H. apply H.
  apply in_map_iff. exists (Z.to_nat z). split; [lia|].
  apply in_seq. lia.
Qed.

Lemma forallb_range2 (P : Z -> Z -> bool) (n m : nat) :
  forallb (fun a => forallb (P a) (map Z.of_nat (seq 0 m)))
    (map Z.of_nat (seq 0 n)) = true ->
  forall a b, 0 <= a < Z.of_nat n -> 0 <= b < Z.of_nat m -> P a b = true.
Proof.
  intros H a b Ha Hb.
  apply (forallb_range (P a) m); [|exact Hb].
  now apply (forallb_range (fun a => forallb (P a) (map Z.of_nat (seq 0 m))) n).
Qed.

(** ** Reading a date *)

Lemma readDigits_app (n : nat) :
  forall acc s v r t,
    readDigits n acc s = Some (v, r) -> readDigits n acc (s ++ t) = Some (v, r ++ t).
Proof.
  induction n as [|n IH]; simpl; intros acc s v r t.
  - now intros [= <- <-].
  - destruct s as [|c s]; [discriminate|]. simpl.
    destruct (isDigit c); [apply IH | discriminate].
Qed.

Lemma readChar_app (c : ascii) (s r t : string) :
  readChar c s = Some r -> readChar c (s ++ t) = Some (r ++ t).
Proof.
  destruct s as [|d s]; simpl; [discriminate|].
  destruct (Ascii.eqb d c); [now intros [= <-] | discriminate].
Qed.

Lemma readDate_app (s t rest : string) (y m d : Z) :
  readDate s = Some (y, m, d, rest) -> readDate (s ++ t) = Some (y, m, d, rest ++ t).
Proof.
  unfold readDate.
  destruct (readDigits 4 0 s) as [[y' s1]|] eqn:H1; [|discriminate].
  rewrite (readDigits_app _ _ _ _ _ t H1).
  destruct (readChar "-" s1) as [s2|] eqn:H2; [|discriminate].
  rewrite (readChar_app _ _ _ t H2).
  destruct (readDigits 2 0 s2) as [[m' s3]|] eqn:H3; [|discriminate].
  rewrite (readDigits_app _ _ _ _ _ t H3).
  destruct (readChar "-" s3) as [s4|] eqn:H4; [|discriminate].
  rewrite (readChar_app _ _ _ t H4).
  destruct (readDigits 2 0 s4) as [[d' s5]|] eqn:H5; [|discriminate].
  rewrite (readDigits_app _ _ _ _ _ t H5).
  destruct ((1 <=? m') && (m' <=? 12) && (1 <=? d') && (d' <=? 31));
    [now intros [= <- <- <- <-] | discriminate].
Qed.

Lemma isCalendarDate_fields (s : string) :
  isCalendarDate s = true ->
  exists y m d, readDate s = Some (y, m, d, "") /\ d <= DaysInMonth y (m - 1).
Proof.
  unfold isCalendarDate.
  destruct (readDate s) as [[[[y m] d] [|c r]]|]; try discriminate.
  intros H. apply Z.leb_le in H. now exists y, m, d.
Qed.

(** ** Clock fields of a local time *)

Lemma clock_of_local (day h m : Z) :
  let t := MakeDate day (MakeTime h m 0 0) in
  Day t = day + (h * 60 + m) / 1440
  /\ HourFromTime t = ((h * 60 + m) / 60) mod 24
  /\ MinFromTime t = m mod 60
  /\ SecFromTime t = 0 /\ msFromTime t = 0.
Proof.
  unfold Day, HourFromTime, MinFromTime, SecFromTime, msFromTime, MakeDate, MakeTime,
    msPerDay, msPerHour, msPerMinute, msPerSecond.
  cbv zeta. repeat split; Z.div_mod_to_equations; lia.
Qed.

(** ** Set-times and the strings built from them *)

Lemma fields_of_clockString (H M : Z) :
  0 <= H < 24 -> 0 <= M < 60 ->
  map Number (split ":" (clockString H M)) = [Int H; Int M].
Proof.
  intros HH HM.
  pose (P := fun a b : Z =>
    match map Number (split ":" (clockString a b)) with
    | [Int x; Int y] => (x =? a) && (y =? b)
    | _ => false
    end).
  assert (Hall : P H M = true).
  { apply (forallb_range2 P 24 60); [vm_compute; reflexivity | lia | lia]. }
  unfold P in Hall.
  destruct (map Number (split ":" (clockString H M)))
    as [|[|x] [|[|y] [|? ?]]]; try discriminate.
  apply andb_true_iff in Hall. destruct Hall as [Hx Hy].
  apply Z.eqb_eq in Hx, Hy. now subst.
Qed.

Lemma parseTimePart_interpolated (H M : Z) :
  0 <= H < 24 -> 0 <= M < 60 ->
  parseTimePart ("T" ++ natString H ++ ":" ++ natString M ++ ":00")
  = if (10 <=? H) && (10 <=? M) then Some (MakeTime H M 0 0) else None.
Proof.
  intros HH HM.
  pose (P := fun a b : Z =>
    match parseTimePart ("T" ++ natString a ++ ":" ++ natString b ++ ":00"),
          (if (10 <=? a) && (10 <=? b) then Some (MakeTime a b 0 0) else None) with
    | Some x, Some y => x =? y
    | None, None => true
    | _, _ => false
    end).
  assert (Hall : P H M = true).
  { apply (forallb_range2 P 24 60); [vm_compute; reflexivity | lia | lia]. }
  unfold P in Hall.
  destruct (parseTimePart _), (if (10 <=? H) && (10 <=? M) then _ else _);
    try discriminate; [|reflexivity].
  apply Z.eqb_eq in Hall. now subst.
Qed.

Lemma numToString_nonneg (x : Z) : 0 <= x -> numToString (Int x) = natString x.
Proof.
  intros H. unfold numToString.
  now destruct (Z.ltb_spec x 0); [lia|].
Qed.

Lemma parse_date_time (h : Host) (date rest : string) (y m d : Z) (c : ascii) :
  readDate date = Some (y, m, d, "") ->
  parse h (date ++ String c rest)
  = match parseTimePart (String c rest) with
    | Some time => TimeClip (UTC h (MakeDate (MakeDay y (m - 1) d) time))
    | None => None
    end.
Proof.
  intros H. unfold parse. now rewrite (readDate_app _ (String c rest) _ _ _ _ H).
Qed.

Lemma dayNumber_fields (date rest : string) (y m d : Z) :
  readDate date = Some (y, m, d, rest) -> dayNumber date = MakeDay y (m - 1) d.
Proof. intros H. unfold dayNumber. now rewrite H. Qed.

(** The end instant for a set-time [HH:MM] on a calendar date: [NaN]
    clock fields as soon as the hour or the minute is below ten. *)
Lemma endDateOf_leading_zero (h : Host) (date : string) (H M : Z) :
  isCalendarDate date = true -> 0 <= H < 24 -> 0 <= M < 60 ->
  H < 10 \/ M < 10 ->
  endDateOf h date (clockString H M) = date ++ "TNaN:NaN:00" ++ getETOffset h date.
Proof.
  intros Hd HH HM Hlow.
  destruct (isCalendarDate_fields _ Hd) as (y & m & d & Hr & _).
  unfold endDateOf. rewrite (fields_of_clockString H M HH HM). simpl nth_error.
  unfold interpolate. rewrite !numToString_nonneg by lia.
  change (date ++ "T" ++ natString H ++ ":" ++ natString M ++ ":00")
    with (date ++ String "T" (natString H ++ ":" ++ natString M ++ ":00")).
  rewrite (parse_date_time h date _ y m d "T" Hr).
  change (String "T" (natString H ++ ":" ++ natString M ++ ":00"))
    with ("T" ++ natString H ++ ":" ++ natString M ++ ":00").
  rewrite (parseTimePart_interpolated H M HH HM).
  replace ((10 <=? H) && (10 <=? M)) with false
    by (symmetry; apply andb_false_iff; rewrite !Z.leb_gt; lia).
  reflexivity.
Qed.

(** The end instant for a set-time [HH:MM] whose hour and minute are
    both at least ten, on a host where the set-time and the time ninety
    minutes later are ordinary local times of that day. *)
Lemma endDateOf_two_digit (h : Host) (date : string) (H M : Z) :
  isCalendarDate date = true -> 10 <= H < 24 -> 10 <= M < 60 ->
  keepsLocal h (localClock date (H * 60 + M)) ->
  keepsLocal h (localClock date (H * 60 + M + 90)) ->
  endDateOf h date (clockString H M)
  = date ++ "T" ++ pad 2 (((H * 60 + M + 90) / 60) mod 24) ++ ":"
         ++ pad 2 ((M + 90) mod 60) ++ ":00" ++ getETOffset h date.
Proof.
  intros Hd HH HM [Hk1 Hr1] [Hk2 Hr2].
  destruct (isCalendarDate_fields _ Hd) as (y & m & d & Hr & _).
  unfold localClock in *. rewrite (dayNumber_fields _ _ _ _ _ Hr) in *.
  set (day := MakeDay y (m - 1) d) in *.
  assert (E1 : MakeDate day ((H * 60 + M) * msPerMinute) = MakeDate day (MakeTime H M 0 0))
    by (unfold MakeDate, MakeTime, msPerHour, msPerMinute, msPerSecond; lia).
  assert (E2 : MakeDate day ((H * 60 + M + 90) * msPerMinute)
               = MakeDate day (MakeTime H (M + 90) 0 0))
    by (unfold MakeDate, MakeTime, msPerHour, msPerMinute, msPerSecond; lia).
  rewrite E1 in *. rewrite E2 in *. clear E1 E2.
  unfold endDateOf. rewrite (fields_of_clockString H M) by lia. simpl nth_error.
  unfold interpolate. rewrite !numToString_nonneg by lia.
  change (date ++ "T" ++ natString H ++ ":" ++ natString M ++ ":00")
    with (date ++ String "T" (natString H ++ ":" ++ natString M ++ ":00")).
  rewrite (parse_date_time h date _ y m d "T" Hr).
  change (String "T" (natString H ++ ":" ++ natString M ++ ":00"))
    with ("T" ++ natString H ++ ":" ++ natString M ++ ":00").
  rewrite (parseTimePart_interpolated H M) by lia.
  replace ((10 <=? H) && (10 <=? M)) with true
    by (symmetry; apply andb_true_iff; rewrite !Z.leb_le; lia).
  fold day. rewrite (TimeClip_inRange _ Hr1).
  destruct (clock_of_local day H M) as (D1 & H1 & M1 & S1 & MS1).
  destruct (clock_of_local day H (M + 90)) as (_ & H2 & M2 & _).
  cbv zeta in *.
  assert (Emin : getMinutes h (Some (UTC h (MakeDate day (MakeTime H M 0 0)))) = Int M).
  { unfold getMinutes. rewrite Hk1, M1. f_equal. Z.div_mod_to_equations; lia. }
  assert (Eset : setMinutes h (Some (UTC h (MakeDate day (MakeTime H M 0 0)))) (Int (M + 90))
                 = Some (UTC h (MakeDate day (MakeTime H (M + 90) 0 0)))).
  { unfold setMinutes. rewrite Hk1, D1, H1, S1, MS1.
    replace ((H * 60 + M) / 1440) with 0 by (Z.div_mod_to_equations; lia).
    replace (((H * 60 + M) / 60) mod 24) with H by (Z.div_mod_to_equations; lia).
    rewrite Z.add_0_r. now apply TimeClip_inRange. }
  rewrite Emin. simpl numAdd. rewrite Eset.
  unfold getHours, getMinutes. rewrite Hk2, H2, M2.
  rewrite !numToString_nonneg by (Z.div_mod_to_equations; lia).
  replace (H * 60 + (M + 90)) with (H * 60 + M + 90) by lia.
  reflexivity.
Qed.

(** ** The offset helper *)

Lemma getETOffset_cases (h : Host) (date : string) :
  getETOffset h date = "-04:00" \/ getETOffset h date = "-05:00".
Proof.
  unfold getETOffset.
  destruct (numLt _ _); [now left | now right].
Qed.

Lemma fixedHost_keepsLocal (minutes tl : Z) :
  inTimeRange (tl - minutes * msPerMinute) -> keepsLocal (fixedHost minutes) tl.
Proof.
  intros H. unfold keepsLocal, LocalTime, UTC. simpl. split; [lia | exact H].
Qed.

(** ** The calendar *)

Lemma DayFromYear_succ (y : Z) : DayFromYear (y + 1) = DayFromYear y + DaysInYear y.
Proof.
  unfold DayFromYear, DaysInYear, isLeap.
  destruct (Z.eqb_spec (y mod 4) 0), (Z.eqb_spec (y mod 100) 0),
    (Z.eqb_spec (y mod 400) 0);
    cbn [negb andb orb]; Z.div_mod_to_equations; lia.
Qed.

Lemma DayFromYear_mono (a b : Z) : a <= b -> DayFromYear a <= DayFromYear b.
Proof.
  intros H. unfold DayFromYear. Z.div_mod_to_equations. lia.
Qed.

Lemma DaysInYear_cases (y : Z) : DaysInYear y = 365 \/ DaysInYear y = 366.
Proof. unfold DaysInYear. destruct (isLeap y); auto. Qed.

Lemma YearFromDay_spec (d : Z) :
  DayFromYear (YearFromDay d) <= d < DayFromYear (YearFromDay d + 1).
Proof.
  unfold YearFromDay, DayFromYear. cbv zeta. Z.div_mod_to_equations. lia.
Qed.

(** The year of a day is the one whose days contain it. *)
Lemma YearFromDay_unique (d y : Z) :
  DayFromYear y <= d < DayFromYear (y + 1) -> YearFromDay d = y.
Proof.
  intros H. pose proof (YearFromDay_spec d) as S.
  destruct (Z.lt_trichotomy (YearFromDay d) y) as [L | [E | G]]; [|exact E|].
  - pose proof (DayFromYear_mono (YearFromDay d + 1) y ltac:(lia)). lia.
  - pose proof (DayFromYear_mono (y + 1) (YearFromDay d) ltac:(lia)). lia.
Qed.

Lemma DaysBeforeMonth_succ (y m : Z) :
  0 <= m -> DaysBeforeMonth y (m + 1) = DaysBeforeMonth y m + DaysInMonth y m.
Proof.
  intros Hm. unfold DaysBeforeMonth.
  replace (Z.to_nat (m + 1)) with (S (Z.to_nat m)) by lia.
  simpl. now rewrite Z2Nat.id.
Qed.

Lemma DaysInMonth_bounds (y m : Z) : 28 <= DaysInMonth y m <= 31.
Proof.
  unfold DaysInMonth.
  destruct (m =? 1); [destruct (isLeap y); lia|].
  destruct ((m =? 3) || (m =? 5) || (m =? 8) || (m =? 10)); lia.
Qed.

Lemma DaysBeforeMonth_12 (y : Z) : DaysBeforeMonth y 12 = DaysInYear y.
Proof.
  unfold DaysBeforeMonth, DaysInYear, daysBeforeMonthAux, DaysInMonth.
  simpl. destruct (isLeap y); reflexivity.
Qed.

Lemma DaysBeforeMonth_mono (y a b : Z) :
  0 <= a <= b -> DaysBeforeMonth y a <= DaysBeforeMonth y b.
Proof.
  intros [Ha Hab].
  replace b with (a + Z.of_nat (Z.to_nat (b - a))) by lia.
  induction (Z.to_nat (b - a)) as [|k IH]; [rewrite Z.add_0_r; lia|].
  replace (a + Z.of_nat (S k)) with (a + Z.of_nat k + 1) by lia.
  rewrite DaysBeforeMonth_succ by lia.
  pose proof (DaysInMonth_bounds y (a + Z.of_nat k)). lia.
Qed.

Lemma DaysBeforeMonth_nonneg (y m : Z) : 0 <= DaysBeforeMonth y m.
Proof.
  destruct (Z.le_gt_cases 0 m) as [H|H].
  - change 0 with (DaysBeforeMonth y 0) at 1. apply DaysBeforeMonth_mono. lia.
  - unfold DaysBeforeMonth. replace (Z.to_nat m) with O by lia. simpl. lia.
Qed.

Lemma monthDayAux_spec (fuel : nat) :
  forall y m r,
    m = 11 - Z.of_nat fuel -> 0 <= m -> 0 <= r ->
    DaysBeforeMonth y m + r < DaysInYear y ->
    let md := monthDayAux fuel y m r in
    m <= fst md <= 11 /\ 1 <= snd md <= DaysInMonth y (fst md)
    /\ DaysBeforeMonth y (fst md) + snd md - 1 = DaysBeforeMonth y m + r.
Proof.
  induction fuel as [|fuel IH]; intros y m r Hm Hm0 Hr Hlt; cbv zeta.
  - simpl. replace m with 11 in * by lia.
    pose proof (DaysBeforeMonth_succ y 11 ltac:(lia)) as Hs.
    change (11 + 1) with 12 in Hs. rewrite DaysBeforeMonth_12 in Hs. lia.
  - simpl. destruct (Z.ltb_spec r (DaysInMonth y m)) as [Hin|Hout]; simpl.
    + lia.
    + pose proof (DaysBeforeMonth_succ y m Hm0) as Hs.
      specialize (IH y (m + 1) (r - DaysInMonth y m)).
      cbv zeta in IH. rewrite Hs in IH.
      pose proof (DaysInMonth_bounds y m).
      destruct IH as (A & B & C); lia.
Qed.

Lemma MakeDay_valid (y m d : Z) :
  1 <= m <= 12 ->
  MakeDay y (m - 1) d = DayFromYear y + DaysBeforeMonth y (m - 1) + d - 1.
Proof.
  intros Hm. unfold MakeDay. cbv zeta.
  replace ((m - 1) / 12) with 0 by (Z.div_mod_to_equations; lia).
  replace ((m - 1) mod 12) with (m - 1) by (Z.div_mod_to_equations; lia).
  now rewrite Z.add_0_r.
Qed.

Lemma MakeDay_within_year (y m d : Z) :
  validYMD y m d ->
  DayFromYear y <= MakeDay y (m - 1) d < DayFromYear (y + 1).
Proof.
  intros [Hm Hd]. rewrite (MakeDay_valid y m d Hm), DayFromYear_succ.
  pose proof (DaysBeforeMonth_nonneg y (m - 1)).
  pose proof (DaysBeforeMonth_succ y (m - 1) ltac:(lia)) as Hs.
  replace (m - 1 + 1) with m in Hs by lia.
  pose proof (DaysBeforeMonth_mono y m 12 ltac:(lia)) as Hmo.
  rewrite DaysBeforeMonth_12 in Hmo. lia.
Qed.

(** The civil date of a time value, and back to its day number. *)
Lemma civil_of_time (t : Z) :
  validYMD (YearFromTime t) (MonthFromTime t + 1) (DateFromTime t)
  /\ MakeDay (YearFromTime t) (MonthFromTime t) (DateFromTime t) = Day t.
Proof.
  unfold MonthFromTime, DateFromTime, DayWithinYear, YearFromTime.
  pose proof (YearFromDay_spec (Day t)) as Hy.
  set (y := YearFromDay (Day t)) in *.
  rewrite DayFromYear_succ in Hy.
  pose proof (monthDayAux_spec 11 y 0 (Day t - DayFromYear y)
                eq_refl ltac:(lia) ltac:(lia)) as Hmd.
  cbv zeta in Hmd. change (DaysBeforeMonth y 0) with 0 in Hmd.
  destruct Hmd as (Hm & Hd & Hsum); [lia|].
  set (md := monthDayAux 11 y 0 (Day t - DayFromYear y)) in *.
  unfold validYMD. replace (fst md + 1 - 1) with (fst md) by lia.
  split; [lia|].
  replace (fst md) with (fst md + 1 - 1) at 1 by lia.
  rewrite (MakeDay_valid y (fst md + 1) (snd md)) by lia.
  replace (fst md + 1 - 1) with (fst md) by lia. lia.
Qed.

(** Day numbers grow with the calendar: year first, then month, then
    day. *)
Lemma MakeDay_lt (y m d y' m' d' : Z) :
  validYMD y m d -> validYMD y' m' d' ->
  dateKey y m d < dateKey y' m' d' ->
  MakeDay y (m - 1) d < MakeDay y' (m' - 1) d'.
Proof.
  intros V V' Hk.
  pose proof (MakeDay_within_year _ _ _ V) as B.
  pose proof (MakeDay_within_year _ _ _ V') as B'.
  destruct V as [Hm Hd], V' as [Hm' Hd'].
  pose proof (DaysInMonth_bounds y (m - 1)).
  pose proof (DaysInMonth_bounds y' (m' - 1)).
  unfold dateKey in Hk.
  destruct (Z.lt_trichotomy y y') as [Ly | [Ey | Gy]]; [| |lia].
  - pose proof (DayFromYear_mono (y + 1) y' ltac:(lia)). lia.
  - subst y'. rewrite !MakeDay_valid by lia.
    destruct (Z.lt_trichotomy m m') as [Lm | [Em | Gm]]; [| |lia].
    + pose proof (DaysBeforeMonth_succ y (m - 1) ltac:(lia)) as Hs.
      replace (m - 1 + 1) with m in Hs by lia.
      pose proof (DaysBeforeMonth_mono y m (m' - 1) ltac:(lia)). lia.
    + subst m'. lia.
Qed.

Lemma MakeDay_key (y m d y' m' d' : Z) :
  validYMD y m d -> validYMD y' m' d' ->
  (dateKey y m d ?= dateKey y' m' d')
  = (MakeDay y (m - 1) d ?= MakeDay y' (m' - 1) d').
Proof.
  intros V V'.
  destruct (Z.compare_spec (dateKey y m d) (dateKey y' m' d')) as [E | L | G].
  - assert (y = y' /\ m = m' /\ d = d') as (-> & -> & ->).
    { destruct V as [Hm Hd], V' as [Hm' Hd'].
      pose proof (DaysInMonth_bounds y (m - 1)).
      pose proof (DaysInMonth_bounds y' (m' - 1)).
      unfold dateKey in E. lia. }
    now rewrite Z.compare_refl.
  - symmetry. apply Z.compare_lt_iff. now apply MakeDay_lt.
  - symmetry. apply Z.compare_gt_iff. now apply MakeDay_lt.
Qed.

(** ** Digit strings *)

Lemma isDigit_val (c : ascii) : isDigit c = true -> 0 <= digitVal c <= 9.
Proof.
  unfold isDigit, digitVal. rewrite andb_true_iff, !Nat.leb_le. lia.
Qed.

Lemma ascii_compare_digitVal (c c' : ascii) :
  Ascii.compare c c' = (digitVal c ?= digitVal c').
Proof.
  unfold Ascii.compare, digitVal, nat_of_ascii.
  destruct (N.compare_spec (N_of_ascii c) (N_of_ascii c')); symmetry;
    [apply Z.compare_eq_iff | apply Z.compare_lt_iff | apply Z.compare_gt_iff]; lia.
Qed.

Lemma digitsValue_bounds (p : string) :
  forall acc,
    allDigits p = true -> 0 <= acc ->
    acc * 10 ^ Z.of_nat (String.length p) <= digitsValue acc p
    < (acc + 1) * 10 ^ Z.of_nat (String.length p).
Proof.
  induction p as [|c p IH]; intros acc Hp Hacc.
  - simpl. lia.
  - simpl in Hp. apply andb_true_iff in Hp. destruct Hp as [Hc Hp].
    pose proof (isDigit_val c Hc) as Hv.
    specialize (IH (10 * acc + digitVal c) Hp ltac:(lia)).
    cbn [digitsValue String.length].
    rewrite Nat2Z.inj_succ, Z.pow_succ_r by lia.
    set (P := 10 ^ Z.of_nat (String.length p)) in *.
    assert (0 < P) by (apply Z.pow_pos_nonneg; lia).
    nia.
Qed.

(** Digit strings of one length are ordered as the numbers they
    write. *)
Lemma compare_digits (p : string) :
  forall q acc,
    allDigits p = true -> allDigits q = true ->
    String.length p = String.length q -> 0 <= acc ->
    String.compare p q = (digitsValue acc p ?= digitsValue acc q).
Proof.
  induction p as [|c p IH]; intros [|c' q] acc Hp Hq Hlen Hacc;
    try discriminate Hlen.
  - simpl. now rewrite Z.compare_refl.
  - simpl in Hp, Hq. apply andb_true_iff in Hp, Hq.
    destruct Hp as [Hc Hp], Hq as [Hc' Hq].
    injection Hlen as Hlen.
    pose proof (isDigit_val c Hc) as Hv. pose proof (isDigit_val c' Hc') as Hv'.
    cbn [String.compare digitsValue]. rewrite ascii_compare_digitVal.
    pose proof (digitsValue_bounds p (10 * acc + digitVal c) Hp ltac:(lia)) as B.
    pose proof (digitsValue_bounds q (10 * acc + digitVal c') Hq ltac:(lia)) as B'.
    rewrite <- Hlen in B'.
    set (P := 10 ^ Z.of_nat (String.length p)) in *.
    assert (0 < P) by (apply Z.pow_pos_nonneg; lia).
    destruct (Z.compare_spec (digitVal c) (digitVal c')) as [E | L | G].
    + rewrite E. apply IH; auto; lia.
    + symmetry. apply Z.compare_lt_iff. nia.
    + symmetry. apply Z.compare_gt_iff. nia.
Qed.

Lemma compare_app (p : string) :
  forall q r r',
    String.length p = String.length q ->
    String.compare (p ++ r) (q ++ r')
    = match String.compare p q with
      | Eq => String.compare r r'
      | c => c
      end.
Proof.
  induction p as [|c p IH]; intros [|c' q] r r' Hlen; try discriminate Hlen.
  - reflexivity.
  - injection Hlen as Hlen. cbn [String.append String.compare].
    destruct (Ascii.compare c c'); auto.
Qed.

Lemma readDigits_split (n : nat) :
  forall acc s v r,
    readDigits n acc s = Some (v, r) ->
    exists p, s = p ++ r /\ String.length p = n /\ allDigits p = true
              /\ v = digitsValue acc p.
Proof.
  induction n as [|n IH]; intros acc s v r H; simpl in H.
  - injection H as <- <-. now exists "".
  - destruct s as [|c s]; [discriminate|].
    destruct (isDigit c) eqn:Hc; [|discriminate].
    destruct (IH _ _ _ _ H) as (p & -> & Hlen & Hp & ->).
    exists (String c p). simpl. rewrite Hc, Hp, Hlen. auto.
Qed.

Lemma readChar_split (c : ascii) (s r : string) :
  readChar c s = Some r -> s = String c r.
Proof.
  destruct s as [|d s]; simpl; [discriminate|].
  destruct (Ascii.eqb_spec d c); [now intros [= <-]; subst | discriminate].
Qed.

(** A date string taken apart: four digits, two digits, two digits. *)
Lemma readDate_split (s rest : string) (y m d : Z) :
  readDate s = Some (y, m, d, rest) ->
  exists py pm pd,
    s = py ++ String "-" (pm ++ String "-" (pd ++ rest))
    /\ String.length py = 4%nat /\ String.length pm = 2%nat /\ String.length pd = 2%nat
    /\ allDigits py = true /\ allDigits pm = true /\ allDigits pd = true
    /\ y = digitsValue 0 py /\ m = digitsValue 0 pm /\ d = digitsValue 0 pd
    /\ 1 <= m <= 12 /\ 1 <= d <= 31.
Proof.
  unfold readDate.
  destruct (readDigits 4 0 s) as [[y' s1]|] eqn:H1; [|discriminate].
  destruct (readChar "-" s1) as [s2|] eqn:H2; [|discriminate].
  destruct (readDigits 2 0 s2) as [[m' s3]|] eqn:H3; [|discriminate].
  destruct (readChar "-" s3) as [s4|] eqn:H4; [|discriminate].
  destruct (readDigits 2 0 s4) as [[d' s5]|] eqn:H5; [|discriminate].
  destruct ((1 <=? m') && (m' <=? 12) && (1 <=? d') && (d' <=? 31)) eqn:Hr;
    [|discriminate].
  intros [= <- <- <- <-].
  apply readDigits_split in H1, H3, H5.
  apply readChar_split in H2, H4.
  destruct H1 as (py & -> & Ly & Dy & ->).
  destruct H3 as (pm & -> & Lm & Dm & ->).
  destruct H5 as (pd & -> & Ld & Dd & ->).
  subst s1 s3.
  rewrite !andb_true_iff, !Z.leb_le in Hr.
  exists py, pm, pd. repeat split; auto; lia.
Qed.

(** Date strings are ordered as their dates. *)
Lemma compare_dates (s s' : string) (y m d y' m' d' : Z) :
  readDate s = Some (y, m, d, "") -> readDate s' = Some (y', m', d', "") ->
  String.compare s s' = (dateKey y m d ?= dateKey y' m' d').
Proof.
  intros H H'.
  destruct (readDate_split _ _ _ _ _ H)
    as (py & pm & pd & -> & Ly & Lm & Ld & Dy & Dm & Dd & -> & -> & -> & Rm & Rd).
  destruct (readDate_split _ _ _ _ _ H')
    as (qy & qm & qd & -> & Ly' & Lm' & Ld' & Dy' & Dm' & Dd' & -> & -> & -> & Rm' & Rd').
  rewrite compare_app by congruence.
  rewrite (compare_digits py qy 0) by (auto; try congruence; lia).
  cbn [String.compare]. rewrite ascii_compare_refl.
  rewrite compare_app by congruence.
  rewrite (compare_digits pm qm 0) by (auto; try congruence; lia).
  cbn [String.compare]. rewrite ascii_compare_refl.
  rewrite compare_app by congruence.
  rewrite (compare_digits pd qd 0) by (auto; try congruence; lia).
  rewrite string_compare_refl.
  unfold dateKey.
  set (Y := digitsValue 0 py) in *. set (Y' := digitsValue 0 qy) in *.
  set (M := digitsValue 0 pm) in *. set (M' := digitsValue 0 qm) in *.
  set (D := digitsValue 0 pd) in *. set (D' := digitsValue 0 qd) in *.
  destruct (Z.compare_spec Y Y') as [EY | LY | GY].
  - destruct (Z.compare_spec M M') as [EM | LM | GM].
    + destruct (Z.compare_spec D D') as [ED | LD | GD]; symmetry;
        [apply Z.compare_eq_iff | apply Z.compare_lt_iff | apply Z.compare_gt_iff]; lia.
    + symmetry. apply Z.compare_lt_iff. lia.
    + symmetry. apply Z.compare_gt_iff. lia.
  - symmetry. apply Z.compare_lt_iff. lia.
  - symmetry. apply Z.compare_gt_iff. lia.
Qed.

(** ** The UTC day of a time value *)

Lemma append_assoc (a b c : string) : (a ++ b) ++ c = a ++ (b ++ c).
Proof. induction a as [|x a IH]; simpl; [reflexivity | now rewrite IH]. Qed.

Lemma append_empty_r (a : string) : a ++ "" = a.
Proof. induction a as [|x a IH]; simpl; [reflexivity | now rewrite IH]. Qed.

Lemma lacks_app (c : ascii) (a b : string) :
  lacks c (a ++ b) = lacks c a && lacks c b.
Proof.
  induction a as [|x a IH]; simpl; [reflexivity|].
  now rewrite IH, andb_assoc.
Qed.

Lemma splitAux_head (sep : ascii) (p : string) :
  forall cur r,
    lacks sep p = true ->
    splitAux sep cur (p ++ String sep r) = (cur ++ p) :: splitAux sep "" r.
Proof.
  induction p as [|c p IH]; intros cur r Hp; simpl.
  - now rewrite Ascii.eqb_refl, append_empty_r.
  - simpl in Hp. apply andb_true_iff in Hp. destruct Hp as [Hc Hp].
    apply negb_true_iff in Hc. rewrite Hc, (IH _ _ Hp), append_assoc.
    reflexivity.
Qed.

Lemma pad4_facts (y : Z) :
  0 <= y < 10000 ->
  readDigits 4 0 (pad 4 y) = Some (y, "") /\ lacks "T" (pad 4 y) = true.
Proof.
  intros Hy.
  pose (P := fun a : Z =>
    match readDigits 4 0 (pad 4 a) with
    | Some (v, EmptyString) => (v =? a) && lacks "T" (pad 4 a)
    | _ => false
    end).
  assert (Hall : P y = true).
  { apply (forallb_range P (Z.to_nat 10000)); [vm_compute; reflexivity | lia]. }
  unfold P in Hall.
  destruct (readDigits 4 0 (pad 4 y)) as [[v [|c r]]|]; try discriminate.
  apply andb_true_iff in Hall. destruct Hall as [Hv Hl].
  apply Z.eqb_eq in Hv. now subst.
Qed.

Lemma pad2_facts (m : Z) :
  0 <= m < 100 ->
  readDigits 2 0 (pad 2 m) = Some (m, "") /\ lacks "T" (pad 2 m) = true.
Proof.
  intros Hm.
  pose (P := fun a : Z =>
    match readDigits 2 0 (pad 2 a) with
    | Some (v, EmptyString) => (v =? a) && lacks "T" (pad 2 a)
    | _ => false
    end).
  assert (Hall : P m = true).
  { apply (forallb_range P 100); [vm_compute; reflexivity | lia]. }
  unfold P in Hall.
  destruct (readDigits 2 0 (pad 2 m)) as [[v [|c r]]|]; try discriminate.
  apply andb_true_iff in Hall. destruct Hall as [Hv Hl].
  apply Z.eqb_eq in Hv. now subst.
Qed.

Lemma readDate_dateText (y m d : Z) :
  0 <= y < 10000 -> 1 <= m <= 12 -> 1 <= d <= 31 ->
  readDate (dateText y m d) = Some (y, m, d, "").
Proof.
  intros Hy Hm Hd. unfold readDate, dateText.
  destruct (pad4_facts y Hy) as [Ry _].
  destruct (pad2_facts m ltac:(lia)) as [Rm _].
  destruct (pad2_facts d ltac:(lia)) as [Rd _].
  rewrite (readDigits_app _ _ _ _ _ _ Ry). cbn [String.append readChar].
  rewrite Ascii.eqb_refl.
  rewrite (readDigits_app _ _ _ _ _ _ Rm). cbn [String.append readChar].
  rewrite Ascii.eqb_refl, Rd.
  replace ((1 <=? m) && (m <=? 12) && (1 <=? d) && (d <=? 31)) with true;
    [reflexivity|].
  symmetry. rewrite !andb_true_iff, !Z.leb_le. lia.
Qed.

Lemma year_in_range (t : Z) :
  inFourDigitYears t -> 0 <= YearFromTime t < 10000.
Proof.
  unfold inFourDigitYears, YearFromTime. intros Ht.
  pose proof (YearFromDay_spec (Day t)) as S.
  assert (B : DayFromYear 0 <= Day t < DayFromYear 10000).
  { unfold Day, msPerDay. change (DayFromYear 0) with (-719528).
    change (DayFromYear 10000) with 2932897. Z.div_mod_to_equations. lia. }
  split.
  - destruct (Z.le_gt_cases 0 (YearFromDay (Day t))) as [|G]; [assumption|].
    pose proof (DayFromYear_mono (YearFromDay (Day t) + 1) 0 ltac:(lia)). lia.
  - destruct (Z.lt_ge_cases (YearFromDay (Day t)) 10000) as [|G]; [assumption|].
    pose proof (DayFromYear_mono 10000 (YearFromDay (Day t)) ltac:(lia)). lia.
Qed.

Lemma utcDay_text (t : Z) :
  inFourDigitYears t ->
  utcDay t = dateText (YearFromTime t) (MonthFromTime t + 1) (DateFromTime t).
Proof.
  intros Ht. pose proof (year_in_range t Ht) as Hy.
  destruct (civil_of_time t) as [[Hm Hd] _].
  pose proof (DaysInMonth_bounds (YearFromTime t) (MonthFromTime t + 1 - 1)).
  unfold utcDay, isoString, split. cbv zeta.
  replace ((0 <=? YearFromTime t) && (YearFromTime t <=? 9999)) with true
    by (symmetry; rewrite andb_true_iff, !Z.leb_le; lia).
  set (Y := pad 4 (YearFromTime t)). set (M := pad 2 (MonthFromTime t + 1)).
  set (D := pad 2 (DateFromTime t)).
  match goal with
  | |- hd _ (splitAux _ _ (Y ++ "-" ++ M ++ "-" ++ D ++ "T" ++ ?r)) = _ =>
      replace (Y ++ "-" ++ M ++ "-" ++ D ++ "T" ++ r)
        with (dateText (YearFromTime t) (MonthFromTime t + 1) (DateFromTime t)
              ++ String "T" r)
  end.
  - rewrite splitAux_head; [reflexivity|].
    unfold dateText. rewrite !lacks_app.
    destruct (pad4_facts (YearFromTime t) ltac:(lia)) as [_ ->].
    destruct (pad2_facts (MonthFromTime t + 1) ltac:(lia)) as [_ ->].
    destruct (pad2_facts (DateFromTime t) ltac:(lia)) as [_ ->].
    reflexivity.
  - unfold dateText. fold Y M D. now rewrite !append_assoc.
Qed.

Lemma utcDay_read (t : Z) :
  inFourDigitYears t ->
  readDate (utcDay t)
  = Some (YearFromTime t, MonthFromTime t + 1, DateFromTime t, "").
Proof.
  intros Ht. rewrite (utcDay_text t Ht).
  destruct (civil_of_time t) as [[Hm Hd] _].
  pose proof (DaysInMonth_bounds (YearFromTime t) (MonthFromTime t + 1 - 1)).
  apply readDate_dateText; [apply year_in_range; assumption | lia | lia].
Qed.

Lemma utcDay_calendar (t : Z) :
  inFourDigitYears t ->
  isCalendarDate (utcDay t) = true /\ dayNumber (utcDay t) = Day t.
Proof.
  intros Ht. unfold isCalendarDate, dayNumber. rewrite (utcDay_read t Ht).
  destruct (civil_of_time t) as [[Hm Hd] E].
  split; [apply Z.leb_le; lia|].
  now replace (MonthFromTime t + 1 - 1) with (MonthFromTime t) by lia.
Qed.

(** ** Calendar dates as the page reads them *)

Lemma calendar_valid (s : string) :
  isCalendarDate s = true ->
  exists y m d,
    readDate s = Some (y, m, d, "") /\ validYMD y m d /\ 0 <= y < 10000.
Proof.
  intros Hs. destruct (isCalendarDate_fields s Hs) as (y & m & d & Hr & Hd).
  destruct (readDate_split _ _ _ _ _ Hr)
    as (py & pm & pd & _ & Ly & _ & _ & Dy & _ & _ & Ey & _ & _ & Rm & Rd).
  exists y, m, d. split; [exact Hr|]. split; [unfold validYMD; lia|].
  pose proof (digitsValue_bounds py 0 Dy ltac:(lia)) as B.
  rewrite Ly in B. change (10 ^ Z.of_nat 4) with 10000 in B. lia.
Qed.

Lemma calendar_day_range (y m d : Z) :
  validYMD y m d -> 0 <= y < 10000 ->
  -719528 <= MakeDay y (m - 1) d < 2932897.
Proof.
  intros V Hy. pose proof (MakeDay_within_year _ _ _ V) as B.
  pose proof (DayFromYear_mono 0 y ltac:(lia)) as L.
  pose proof (DayFromYear_mono (y + 1) 10000 ltac:(lia)) as U.
  change (DayFromYear 0) with (-719528) in L.
  change (DayFromYear 10000) with 2932897 in U. lia.
Qed.

(** A calendar date parses to midnight UTC of its day. *)
Lemma parse_calendar (h : Host) (s : string) :
  isCalendarDate s = true ->
  parse h s = Some (dayNumber s * msPerDay)
  /\ -719528 <= dayNumber s < 2932897.
Proof.
  intros Hs. destruct (calendar_valid s Hs) as (y & m & d & Hr & V & Hy).
  pose proof (calendar_day_range y m d V Hy) as B.
  unfold parse, dayNumber. rewrite Hr. split; [|exact B].
  unfold MakeDate. rewrite Z.add_0_r. apply TimeClip_inRange.
  unfold inTimeRange, maxTime, msPerDay. lia.
Qed.

(** Order of a calendar date and the UTC day of an instant, read on the
    day numbers. *)
Lemma compare_calendar_utcDay (s : string) (t : Z) :
  isCalendarDate s = true -> inFourDigitYears t ->
  String.compare s (utcDay t) = (dayNumber s ?= Day t).
Proof.
  intros Hs Ht. destruct (calendar_valid s Hs) as (y & m & d & Hr & V & Hy).
  destruct (civil_of_time t) as [V' E].
  rewrite (compare_dates _ _ _ _ _ _ _ _ Hr (utcDay_read t Ht)).
  rewrite (MakeDay_key _ _ _ _ _ _ V V').
  rewrite (dayNumber_fields _ _ _ _ _ Hr).
  replace (MonthFromTime t + 1 - 1) with (MonthFromTime t) by lia.
  now rewrite E.
Qed.

(** ** The window *)

Lemma Permutation_filter_keep {A : Type} (f : A -> bool) (l l' : list A) :
  Permutation l l' -> Permutation (filter f l) (filter f l').
Proof.
  induction 1 as [| x l l' _ IH | x y l | l l' l'' _ IH1 _ IH2]; simpl.
  - constructor.
  - destruct (f x); [now constructor | exact IH].
  - destruct (f x), (f y); try apply Permutation_refl. apply perm_swap.
  - eapply Permutation_trans; eassumption.
Qed.

Lemma filter_both {A : Type} (f g : A -> bool) (l : list A) :
  filter f (filter g l) = filter (fun x => g x && f x) l.
Proof.
  induction l as [|x l IH]; simpl; [reflexivity|].
  destruct (g x); simpl; [destruct (f x); now rewrite IH | exact IH].
Qed.

Lemma inFourDigitYears_inRange (t : Z) : inFourDigitYears t -> inTimeRange t.
Proof. unfold inFourDigitYears, inTimeRange, maxTime. lia. Qed.

Lemma Day_floor (t : Z) : Day t * msPerDay <= t < (Day t + 1) * msPerDay.
Proof. unfold Day, msPerDay. Z.div_mod_to_equations. lia. Qed.

Lemma Day_add_days (t k : Z) : Day (t + k * msPerDay) = Day t + k.
Proof. unfold Day, msPerDay. Z.div_mod_to_equations. lia. Qed.

(** A calendar date before the cut-off day lies before the cut-off
    instant: the filter of the "More Dates" section keeps it. *)
Lemma withinCutoff_before_cutoffDay (env : Env) (now : Z) (e : OtherEvent) :
  isCalendarDate (other_dateString e) = true ->
  inFourDigitYears (now + msAhead env) ->
  String.ltb (other_dateString e) (utcDay (now + msAhead env)) = true ->
  withinCutoff env now e = true.
Proof.
  intros Hc Ht Hlt. unfold withinCutoff, newDateMs.
  destruct (parse_calendar (host env) _ Hc) as [-> _].
  rewrite (TimeClip_inRange _ (inFourDigitYears_inRange _ Ht)). simpl.
  unfold String.ltb in Hlt. rewrite (compare_calendar_utcDay _ _ Hc Ht) in Hlt.
  destruct (Z.compare_spec (dayNumber (other_dateString e)) (Day (now + msAhead env)));
    try discriminate.
  pose proof (Day_floor (now + msAhead env)).
  apply Z.leb_le. unfold msPerDay in *. lia.
Qed.

Lemma window_filter_redundant (env : Env) (now : Z) (slug : string)
  (cands : list OtherEvent) :
  inFourDigitYears (now + msAhead env) ->
  Forall (fun e => isCalendarDate (other_dateString e) = true) cands ->
  let w := {| gte := utcDay now; lt := utcDay (now + msAhead env); notSlug := slug |} in
  filter (fun e => matchesWhere w e && withinCutoff env now e) cands
  = filter (matchesWhere w) cands.
Proof.
  intros Ht Hc w. apply filter_ext_in. intros e He.
  rewrite Forall_forall in Hc. specialize (Hc e He).
  destruct (matchesWhere w e) eqn:Hw; [|reflexivity]. simpl.
  apply withinCutoff_before_cutoffDay; auto.
  unfold matchesWhere in Hw. rewrite !andb_true_iff in Hw.
  now destruct Hw as [[_ Hlt] _].
Qed.

Lemma compare_utcDays (t t' : Z) :
  inFourDigitYears t -> inFourDigitYears t' ->
  String.compare (utcDay t) (utcDay t') = (Day t ?= Day t').
Proof.
  intros Ht Ht'. destruct (utcDay_calendar t Ht) as [Hc Hd].
  now rewrite (compare_calendar_utcDay _ _ Hc Ht'), Hd.
Qed.

Lemma eventWindow_general (env : Env) (now : Z) (slug : string)
  (cands : list OtherEvent) :
  inTimeRange now -> inTimeRange (now + msAhead env) ->
  let w := {| gte := utcDay now; lt := utcDay (now + msAhead env); notSlug := slug |} in
  eventWindow env now slug cands
  = Some (moreDatesFilter env now (queryEvents env w cands))
  /\ Sorted byDate (moreDatesFilter env now (queryEvents env w cands))
  /\ Permutation (moreDatesFilter env now (queryEvents env w cands))
       (filter (fun e => matchesWhere w e && withinCutoff env now e) cands).
Proof.
  intros H1 H2 w. unfold eventWindow.
  rewrite (eventsWhere_inRange env now slug H1 H2). fold w.
  split; [reflexivity|]. split.
  - apply Sorted_filter_date, orderBy_sorted.
  - unfold moreDatesFilter, queryEvents. rewrite <- filter_both.
    apply Permutation_filter_keep, Permutation_sym, orderBy_perm.
Qed.

(** The window on the three events of the specification's scenario:
    dated today, in ten days and in forty days, the first being the one
    viewed, with a horizon of thirty days. *)
Lemma eventWindow_scenario (env : Env) (now : Z) (slug : string)
  (e0 e10 e40 : OtherEvent) :
  inFourDigitYears now -> inFourDigitYears (now + 40 * msPerDay) ->
  DAYS_AHEAD env = 30 ->
  other_dateString e0 = utcDay now -> other_slug e0 = slug ->
  other_dateString e10 = utcDay (now + 10 * msPerDay) -> other_slug e10 <> slug ->
  other_dateString e40 = utcDay (now + 40 * msPerDay) ->
  eventWindow env now slug [e0; e10; e40] = Some [e10].
Proof.
  intros Hnow H40 Hdays D0 S0 D10 S10 D40.
  assert (Hms : msAhead env = 30 * msPerDay)
    by (unfold msAhead, msPerDay; rewrite Hdays; reflexivity).
  assert (H10 : inFourDigitYears (now + 10 * msPerDay))
    by (unfold inFourDigitYears, msPerDay in *; lia).
  assert (H30 : inFourDigitYears (now + msAhead env))
    by (rewrite Hms; unfold inFourDigitYears, msPerDay in *; lia).
  destruct (eventWindow_general env now slug [e0; e10; e40]
              (inFourDigitYears_inRange _ Hnow) (inFourDigitYears_inRange _ H30))
    as (-> & _ & _).
  set (w := {| gte := utcDay now; lt := utcDay (now + msAhead env); notSlug := slug |}).
  assert (M0 : matchesWhere w e0 = false).
  { unfold matchesWhere. simpl. rewrite S0, String.eqb_refl.
    now rewrite andb_false_r. }
  assert (M10 : matchesWhere w e10 = true).
  { unfold matchesWhere, String.leb, String.ltb. simpl. rewrite D10.
    rewrite !compare_utcDays by assumption.
    rewrite Hms, !Day_add_days.
    replace (Day now ?= Day now + 10) with Lt by (symmetry; apply Z.compare_lt_iff; lia).
    replace (Day now + 10 ?= Day now + 30) with Lt
      by (symmetry; apply Z.compare_lt_iff; lia).
    apply String.eqb_neq in S10. now rewrite S10. }
  assert (M40 : matchesWhere w e40 = false).
  { unfold matchesWhere, String.leb, String.ltb. simpl. rewrite D40.
    rewrite !compare_utcDays by assumption.
    rewrite Hms, !Day_add_days.
    replace (Day now + 40 ?= Day now + 30) with Gt
      by (symmetry; apply Z.compare_gt_iff; lia).
    now rewrite andb_false_r. }
  unfold queryEvents. simpl filter. rewrite M0, M10, M40.
  rewrite (Permutation_length_1_inv (orderBy_perm env [e10])).
  unfold moreDatesFilter. simpl.
  rewrite withinCutoff_before_cutoffDay; [reflexivity | | assumption |].
  - rewrite D10. now apply utcDay_calendar.
  - unfold matchesWhere in M10. rewrite !andb_true_iff in M10.
    now destruct M10 as [[_ ?] _].
Qed.

(** On calendar dates the order of the strings is the order of the
    days. *)
Lemma leb_calendar (a b : string) :
  isCalendarDate a = true -> isCalendarDate b = true ->
  (String.leb a b = true <-> dayNumber a <= dayNumber b).
Proof.
  intros Ha Hb.
  destruct (calendar_valid a Ha) as (y & m & d & Hr & V & _).
  destruct (calendar_valid b Hb) as (y' & m' & d' & Hr' & V' & _).
  unfold String.leb.
  rewrite (compare_dates _ _ _ _ _ _ _ _ Hr Hr'), (MakeDay_key _ _ _ _ _ _ V V').
  rewrite (dayNumber_fields _ _ _ _ _ Hr), (dayNumber_fields _ _ _ _ _ Hr').
  destruct (Z.compare_spec (MakeDay y (m - 1) d) (MakeDay y' (m' - 1) d'))
    as [E | L | G];
    split; intros K; try reflexivity; try discriminate K; lia.
Qed.

Lemma Sorted_byDay (l : list OtherEvent) :
  Forall (fun e => isCalendarDate (other_dateString e) = true) l ->
  Sorted byDate l -> Sorted byDay l.
Proof.
  intros Hc Hs. induction Hs as [|x l Hs IH Hx]; [constructor|].
  inversion Hc as [|? ? Cx Cl]; subst.
  constructor; [now apply IH|].
  destruct Hx as [|y l Hxy]; constructor.
  inversion Cl; subst. now apply leb_calendar.
Qed.

(** ** Hosts *)

Lemma sundayOnOrAfter_ge (d : Z) : d <= sundayOnOrAfter d.
Proof. unfold sundayOnOrAfter. Z.div_mod_to_equations. lia. Qed.

Lemma MakeDay_first_of_month (y m : Z) :
  0 <= m <= 11 -> DayFromYear y <= MakeDay y m 1.
Proof.
  intros Hm. replace m with (m + 1 - 1) by lia.
  rewrite MakeDay_valid by lia.
  pose proof (DaysBeforeMonth_nonneg y (m + 1 - 1)). lia.
Qed.

(** On the New York host every local time outside the hour from 02:00
    to 03:00 is the local reading of the instant it converts to. *)
Lemma easternHost_LocalTime_UTC (tl : Z) :
  ~ (2 * msPerHour <= tl mod msPerDay < 3 * msPerHour) ->
  LocalTime easternHost (UTC easternHost tl) = tl.
Proof.
  intros Hgap. unfold LocalTime, UTC. cbn [LocalTZA easternHost].
  enough (E : easternTZA (tl - easternTZA tl false) true = easternTZA tl false) by lia.
  unfold easternTZA at 2 3. cbv zeta.
  set (y := YearFromTime tl).
  pose proof (sundayOnOrAfter_ge (MakeDay y 2 1)) as HM.
  pose proof (MakeDay_first_of_month y 2 ltac:(lia)) as HM'.
  pose proof (YearFromDay_spec (Day tl)) as Hy. fold (YearFromTime tl) in Hy. fold y in Hy.
  set (M := sundayOnOrAfter (MakeDay y 2 1) + 7) in *.
  set (N := sundayOnOrAfter (MakeDay y 10 1)) in *.
  destruct ((M * msPerDay + 3 * msPerHour <=? tl) && (tl <? N * msPerDay + 2 * msPerHour))
    eqn:Hdst.
  - apply andb_true_iff in Hdst. destruct Hdst as [H1 H2].
    apply Z.leb_le in H1. apply Z.ltb_lt in H2.
    unfold easternTZA. cbv zeta.
    assert (Ey : YearFromTime (tl - -4 * msPerHour + -5 * msPerHour) = y).
    { unfold YearFromTime. apply YearFromDay_unique.
      unfold Day, msPerDay, msPerHour in *. Z.div_mod_to_equations. lia. }
    rewrite Ey. fold M. fold N.
    replace ((M * msPerDay + 2 * msPerHour - -5 * msPerHour <=? tl - -4 * msPerHour)
             && (tl - -4 * msPerHour <? N * msPerDay + 2 * msPerHour - -4 * msPerHour))
      with true; [reflexivity|].
    symmetry. apply andb_true_iff. rewrite Z.leb_le, Z.ltb_lt.
    unfold msPerDay, msPerHour in *. lia.
  - apply andb_false_iff in Hdst.
    unfold easternTZA. cbv zeta.
    replace (tl - -5 * msPerHour + -5 * msPerHour) with tl by lia.
    fold y. fold M. fold N.
    replace ((M * msPerDay + 2 * msPerHour - -5 * msPerHour <=? tl - -5 * msPerHour)
             && (tl - -5 * msPerHour <? N * msPerDay + 2 * msPerHour - -4 * msPerHour))
      with false; [reflexivity|].
    symmetry. apply andb_false_iff. rewrite Z.leb_gt, Z.ltb_ge.
    rewrite Z.leb_gt, Z.ltb_ge in Hdst.
    unfold msPerDay, msPerHour in *. Z.div_mod_to_equations. lia.
Qed.

Lemma easternTZA_cases (t : Z) (isUTC : bool) :
  easternTZA t isUTC = -4 * msPerHour \/ easternTZA t isUTC = -5 * msPerHour.
Proof.
  unfold easternTZA. cbv zeta.
  match goal with |- context [if ?b then -4 * msPerHour else _] => destruct b end;
    auto.
Qed.

(** On the New York host the clock times 23:15 and 00:45 of the next
    day are ordinary local times on every calendar date. *)
Lemma easternHost_keepsLocal_evening (date : string) :
  isCalendarDate date = true ->
  keepsLocal easternHost (localClock date (23 * 60 + 15))
  /\ keepsLocal easternHost (localClock date (24 * 60 + 45)).
Proof.
  intros Hc. destruct (parse_calendar easternHost date Hc) as [_ Hd].
  unfold keepsLocal, localClock, MakeDate.
  set (day := dayNumber date) in *.
  split; (split;
    [ apply easternHost_LocalTime_UTC;
      unfold msPerDay, msPerHour, msPerMinute; Z.div_mod_to_equations; lia
    | unfold inTimeRange, UTC; cbn [LocalTZA easternHost];
      match goal with
      | |- context [easternTZA ?t ?b] => destruct (easternTZA_cases t b) as [-> | ->]
      end;
      unfold maxTime, msPerDay, msPerHour, msPerMinute; lia ]).
Qed.

(* ===================================================================== *)
(** * The event window                                                    *)
(* ===================================================================== *)

(** C1 as the specification states it fails on the two events of
    [outsideWindow]: both are dated no later than [sampleNow] plus thirty
    days and neither is the viewed event, yet the page lists neither,
    the first being past and the second falling on the cut-off day. *)
Lemma C1_counterexample :
  specWindow sampleEnv sampleNow "late-session" outsideWindow = outsideWindow
  /\ eventWindow sampleEnv sampleNow "late-session" outsideWindow = Some []
  /\ eventWindow sampleEnv sampleNow "late-session" outsideWindow
     <> Some (specWindow sampleEnv sampleNow "late-session" outsideWindow).
Proof.
  assert (E1 : specWindow sampleEnv sampleNow "late-session" outsideWindow
               = outsideWindow) by (vm_compute; reflexivity).
  assert (E2 : eventWindow sampleEnv sampleNow "late-session" outsideWindow
               = Some []) by (vm_compute; reflexivity).
  split; [exact E1|]. split; [exact E2|].
  rewrite E1, E2. discriminate.
Qed.

(** C1 (amended).  When [now] and [now] plus the horizon lie in the
    years 0000-9999, the event window is, in ascending order of date
    string, exactly the candidates whose slug differs from the viewed
    slug and whose date string is at least the UTC day of [now] and
    strictly below the UTC day of [now] plus the horizon, provided their
    date is no later than [now] plus the horizon, which holds for every
    candidate whose date string is a calendar date.  For events dated
    today, in ten days and in forty days, a horizon of thirty days and
    the first event viewed, it is the second event alone. *)
Theorem C1_event_window (env : Env) (now : Z) (slug : string) :
  inFourDigitYears now -> inFourDigitYears (now + msAhead env) ->
  let inWindow := fun e : OtherEvent =>
    String.leb (utcDay now) (other_dateString e)
    && String.ltb (other_dateString e) (utcDay (now + msAhead env))
    && negb (String.eqb (other_slug e) slug) in
  (forall cands : list OtherEvent,
     exists out,
       eventWindow env now slug cands = Some out
       /\ Sorted byDate out
       /\ Permutation out (filter (fun e => inWindow e && withinCutoff env now e) cands)
       /\ (Forall (fun e => isCalendarDate (other_dateString e) = true) cands ->
           Permutation out (filter inWindow cands)))
  /\ (forall e0 e10 e40 : OtherEvent,
        DAYS_AHEAD env = 30 -> inFourDigitYears (now + 40 * msPerDay) ->
        other_dateString e0 = utcDay now -> other_slug e0 = slug ->
        other_dateString e10 = utcDay (now + 10 * msPerDay) ->
        other_slug e10 <> slug ->
        other_dateString e40 = utcDay (now + 40 * msPerDay) ->
        eventWindow env now slug [e0; e10; e40] = Some [e10]).
Proof.
  intros Hnow Hcut inWindow. split.
  - intros cands.
    destruct (eventWindow_general env now slug cands
                (inFourDigitYears_inRange _ Hnow) (inFourDigitYears_inRange _ Hcut))
      as (E & S & P).
    eexists. split; [exact E|]. split; [exact S|]. split; [exact P|].
    intros Hc.
    pose proof (window_filter_redundant env now slug cands Hcut Hc) as R.
    cbv zeta in R.
    change (filter inWindow cands)
      with (filter (matchesWhere {| gte := utcDay now;
                                    lt := utcDay (now + msAhead env);
                                    notSlug := slug |}) cands).
    rewrite <- R. exact P.
  - intros e0 e10 e40 Hdays H40 D0 S0 D10 S10 D40.
    now apply eventWindow_scenario.
Qed.

Lemma C1_event_window_witness :
  eventWindow sampleEnv sampleNow "late-session" scenario
  = Some [otherOn "village-set" "2025-06-24"].
Proof.
  assert (H1 : inFourDigitYears sampleNow)
    by (cbv; split; [discriminate | reflexivity]).
  assert (H2 : inFourDigitYears (sampleNow + msAhead sampleEnv))
    by (cbv; split; [discriminate | reflexivity]).
  destruct (C1_event_window sampleEnv sampleNow "late-session" H1 H2) as [_ H].
  apply H.
  - reflexivity.
  - cbv; split; [discriminate | reflexivity].
  - vm_compute; reflexivity.
  - reflexivity.
  - vm_compute; reflexivity.
  - discriminate.
  - vm_compute; reflexivity.
Defined.

(** The page of "late-session" rendered from [clubDb] at [sampleNow]:
    one query, the date in ten days under "More Dates", and an end
    instant after midnight that keeps the date of the event. *)
Example page_of_late_session :
  exists v,
    Page sampleEnv sampleNow "late-session" clubDb []
    = (Returned v, [FindUniqueEvent "late-session"])
    /\ option_map (map other_slug) (moreDates v) = Some ["village-set"]
    /\ ld_startDate (jsonLd v) = "2025-06-14T22:30:00-04:00"
    /\ ld_endDate (jsonLd v) = Some "2025-06-14T00:45:00-04:00".
Proof.
  eexists. split; [vm_compute; reflexivity|].
  split; [reflexivity|]. split; reflexivity.
Qed.

(** C7.  Whatever the stored events, the viewed slug, the instant and the
    horizon, neither the event window nor the "More Dates" list of a
    rendered page holds an event with the slug of the page, whether or
    not its date lies inside the window. *)
Theorem C7_more_dates_never_self (env : Env) (now : Z) (slug : string) :
  (forall cands : list OtherEvent,
     match eventWindow env now slug cands with
     | Some out => Forall (fun e => other_slug e <> slug) out
     | None => True
     end)
  /\ (forall (db : Db) (log : list Query),
        match Page env now slug db log with
        | (Returned v, _) =>
            match moreDates v with
            | Some out => Forall (fun e => other_slug e <> slug) out
            | None => True
            end
        | _ => True
        end).
Proof.
  assert (Hwin : forall cands out,
             eventWindow env now slug cands = Some out ->
             Forall (fun e => other_slug e <> slug) out).
  { intros cands out. unfold eventWindow.
    destruct (eventsWhere env now slug) as [w|] eqn:Hw; [|discriminate].
    intros [= <-]. rewrite <- (eventsWhere_notSlug _ _ _ _ Hw).
    apply window_excludes_slug. }
  split.
  - intros cands. destruct (eventWindow env now slug cands) eqn:H; eauto.
  - intros db log.
    destruct (Page env now slug db log) as [[v| |] log'] eqn:HP; trivial.
    destruct (moreDates v) as [out|] eqn:Hm; trivial.
    destruct (Page_moreDates _ _ _ _ _ _ _ _ HP Hm) as [aid H]. eauto.
Qed.

(** C8.  The query result is in ascending order of date string and stays
    so through the filter, which for calendar dates is the order of the
    days; the filter only leaves events out, keeping the others in the
    order it received them; and the events of one date are kept or
    dropped together, so those kept stand as they stood. *)
Theorem C8_window_keeps_order (env : Env) (now : Z) :
  (forall (w : EventsWhere) (cands : list OtherEvent),
     Sorted byDate (moreDatesFilter env now (queryEvents env w cands))
     /\ (Forall (fun e => isCalendarDate (other_dateString e) = true) cands ->
         Sorted byDay (moreDatesFilter env now (queryEvents env w cands))))
  /\ (forall evs : list OtherEvent, Subseq (moreDatesFilter env now evs) evs)
  /\ (forall (evs : list OtherEvent) (d : string),
        filter (hasDate d) (moreDatesFilter env now evs) = filter (hasDate d) evs
        \/ filter (hasDate d) (moreDatesFilter env now evs) = []).
Proof.
  split; [|split].
  - intros w cands.
    assert (S : Sorted byDate (moreDatesFilter env now (queryEvents env w cands)))
      by apply Sorted_filter_date, orderBy_sorted.
    split; [exact S|]. intros Hc. apply Sorted_byDay; [|exact S].
    rewrite Forall_forall in *. intros e He.
    apply filter_In in He. destruct He as [He _].
    apply queryEvents_In in He. now apply Hc.
  - intros evs. apply Subseq_filter.
  - intros evs d. unfold moreDatesFilter.
    rewrite filter_filter_comm.
    set (probe := {| other_id := ""; other_name := ""; other_slug := "";
                     other_dateString := d; other_setTimes := [];
                     other_venue_name := ""; other_venue_slug := "" |}).
    assert (Hsame : forall e, hasDate d e = true ->
                      withinCutoff env now e = withinCutoff env now probe).
    { intros e He. apply String.eqb_eq in He.
      unfold withinCutoff. simpl. now rewrite He. }
    rewrite (filter_constant _ (withinCutoff env now probe)).
    + destruct (withinCutoff env now probe); [now left | now right].
    + apply Forall_forall. intros e He. apply filter_In in He. now apply Hsame.
Qed.

Lemma C8_window_keeps_order_witness :
  Sorted byDay
    (moreDatesFilter sampleEnv sampleNow
       (queryEvents sampleEnv
          {| gte := "2025-06-14"; lt := "2025-07-14"; notSlug := "late-session" |}
          scenario)).
Proof.
  apply (C8_window_keeps_order sampleEnv sampleNow).
  repeat constructor.
Defined.

(* ===================================================================== *)
(** * Start and end instants                                              *)
(* ===================================================================== *)

(** The start instant built from a set-time [HH:MM] on a calendar date
    is an ISO-8601 instant with offset. *)
Lemma start_instant_is_ISO (h : Host) (date : string) (H M : Z) :
  isCalendarDate date = true -> 0 <= H < 24 -> 0 <= M < 60 ->
  isISOInstant (date ++ "T" ++ clockString H M ++ ":00" ++ getETOffset h date) = true.
Proof.
  intros Hd HH HM.
  destruct (isCalendarDate_fields _ Hd) as (y & m & d & Hr & Hdim).
  unfold isISOInstant. rewrite (readDate_app _ _ _ _ _ _ Hr).
  apply Z.leb_le in Hdim. rewrite Hdim. simpl.
  pose (P := fun a b : Z =>
    isClockAndOffset ("T" ++ clockString a b ++ ":00" ++ "-04:00")
    && isClockAndOffset ("T" ++ clockString a b ++ ":00" ++ "-05:00")).
  assert (Hall : P H M = true).
  { apply (forallb_range2 P 24 60); [vm_compute; reflexivity | lia | lia]. }
  apply andb_true_iff in Hall.
  destruct (getETOffset_cases h date) as [-> | ->]; apply Hall.
Qed.

(** The end instant built from a set-time whose hour and minute are both
    at least ten is an ISO-8601 instant with offset. *)
Lemma end_instant_is_ISO (h : Host) (date : string) (H M : Z) :
  isCalendarDate date = true -> 10 <= H < 24 -> 10 <= M < 60 ->
  keepsLocal h (localClock date (H * 60 + M)) ->
  keepsLocal h (localClock date (H * 60 + M + 90)) ->
  isISOInstant (endDateOf h date (clockString H M)) = true.
Proof.
  intros Hd HH HM K1 K2.
  rewrite (endDateOf_two_digit h date H M Hd HH HM K1 K2).
  destruct (isCalendarDate_fields _ Hd) as (y & m & d & Hr & Hdim).
  unfold isISOInstant. rewrite (readDate_app _ _ _ _ _ _ Hr).
  apply Z.leb_le in Hdim. rewrite Hdim. simpl.
  pose (P := fun a b : Z =>
    isClockAndOffset ("T" ++ pad 2 a ++ ":" ++ pad 2 b ++ ":00" ++ "-04:00")
    && isClockAndOffset ("T" ++ pad 2 a ++ ":" ++ pad 2 b ++ ":00" ++ "-05:00")).
  assert (Hall : P (((H * 60 + M + 90) / 60) mod 24) ((M + 90) mod 60) = true).
  { apply (forallb_range2 P 24 60); [vm_compute; reflexivity | |];
      Z.div_mod_to_equations; lia. }
  apply andb_true_iff in Hall.
  destruct (getETOffset_cases h date) as [-> | ->]; apply Hall.
Qed.

(** C2.  The end instant for the set-times ["20:00"] on 14 June 2025,
    on any host: the clock fields read [NaN], not 21:30, because the
    page rebuilds the local time from the numbers 20 and 0 and the
    string "2025-06-14T20:0:00" is not a date. *)
Theorem C2_end_instant_of_eight_pm (env : Env) :
  endDate env (eventOn "2025-06-14" (Some ["20:00"]))
  = Some ("2025-06-14TNaN:NaN:00" ++ getETOffset (host env) "2025-06-14")
  /\ endDate env (eventOn "2025-06-14" (Some ["20:00"]))
     <> Some ("2025-06-14T21:30:00" ++ getETOffset (host env) "2025-06-14").
Proof.
  assert (E : endDate env (eventOn "2025-06-14" (Some ["20:00"]))
              = Some ("2025-06-14TNaN:NaN:00" ++ getETOffset (host env) "2025-06-14")).
  { unfold endDate, hasSetTimes. cbn [eventOn setTimes dateString last].
    change "20:00" with (clockString 20 0).
    rewrite (endDateOf_leading_zero (host env) "2025-06-14" 20 0);
      [| reflexivity | lia | lia | lia].
    cbn [String.append]. reflexivity. }
  split; [exact E|].
  rewrite E. destruct (getETOffset_cases (host env) "2025-06-14") as [-> | ->];
    discriminate.
Qed.

(** The example of the specification does hold: with the set-times
    ["20:00"; "21:30"] the end instant reads 23:00 on the same date, here
    on the New York host in June. *)
Example end_of_specification_example :
  endDate sampleEnv (eventOn "2025-06-14" (Some ["20:00"; "21:30"]))
  = Some "2025-06-14T23:00:00-04:00".
Proof. vm_compute. reflexivity. Qed.

(** C4.  For the set-times ["19:30"; "22:00"] on 8 March 2025, both HH:MM,
    the start instant is an ISO-8601 instant with offset and the end
    instant is not: its clock reads [NaN:NaN]. *)
Theorem C4_end_instant_not_ISO (env : Env) :
  let event := eventOn "2025-03-08" (Some ["19:30"; "22:00"]) in
  let offset := getETOffset (host env) "2025-03-08" in
  startDate env event = Some ("2025-03-08T19:30:00" ++ offset)
  /\ isISOInstant ("2025-03-08T19:30:00" ++ offset) = true
  /\ endDate env event = Some ("2025-03-08TNaN:NaN:00" ++ offset)
  /\ isISOInstant ("2025-03-08TNaN:NaN:00" ++ offset) = false.
Proof.
  cbv zeta. split; [|split; [|split]].
  - unfold startDate, hasSetTimes. cbn [eventOn setTimes dateString hd].
    cbn [String.append]. reflexivity.
  - destruct (getETOffset_cases (host env) "2025-03-08") as [-> | ->]; reflexivity.
  - unfold endDate, hasSetTimes. cbn [eventOn setTimes dateString last].
    change "22:00" with (clockString 22 0).
    rewrite (endDateOf_leading_zero (host env) "2025-03-08" 22 0);
      [| reflexivity | lia | lia | lia].
    cbn [String.append]. reflexivity.
  - destruct (getETOffset_cases (host env) "2025-03-08") as [-> | ->]; reflexivity.
Qed.

(** C5.  When the last set-time is "23:15", on a host where 23:15 of the
    event's day and 00:45 of the next are ordinary local times, the end
    instant reads 00:45 after the event's own date: the date is not
    moved to the next day. *)
Theorem C5_end_after_midnight (env : Env) (e : EventWithArtist) (ts : list string) :
  setTimes e = Some ts -> last ts "" = "23:15" ->
  isCalendarDate (dateString e) = true ->
  keepsLocal (host env) (localClock (dateString e) (23 * 60 + 15)) ->
  keepsLocal (host env) (localClock (dateString e) (24 * 60 + 45)) ->
  endDate env e
  = Some (dateString e ++ "T00:45:00" ++ getETOffset (host env) (dateString e)).
Proof.
  intros Hts Hlast Hd K1 K2.
  unfold endDate, hasSetTimes. rewrite Hts.
  destruct ts as [|t ts]; [discriminate Hlast|].
  rewrite Hlast.
  change "23:15" with (clockString 23 15).
  rewrite (endDateOf_two_digit (host env) (dateString e) 23 15 Hd);
    [ | lia | lia | exact K1 | exact K2].
  reflexivity.
Qed.

Lemma C5_end_after_midnight_witness :
  endDate sampleEnv (eventOn "2025-06-14" (Some ["21:30"; "23:15"]))
  = Some "2025-06-14T00:45:00-04:00".
Proof.
  apply (C5_end_after_midnight sampleEnv
           (eventOn "2025-06-14" (Some ["21:30"; "23:15"])) ["21:30"; "23:15"]).
  - reflexivity.
  - reflexivity.
  - reflexivity.
  - split; [vm_compute; reflexivity | cbv; discriminate].
  - split; [vm_compute; reflexivity | cbv; discriminate].
Defined.

(** C6.  When the event has no set-times, the start instant is
    [formatInTimeZone] applied to midnight of the event's date on the
    host's clock, for America/New_York, and there is no end instant. *)
Theorem C6_start_without_set_times (env : Env) (e : EventWithArtist) :
  setTimes e = None \/ setTimes e = Some [] ->
  isCalendarDate (dateString e) = true ->
  startDate env e
  = formatInTimeZone env (localMidnight (host env) (dateString e))
      "America/New_York" "yyyy-MM-dd'T'HH:mm:ssXXX"
  /\ endDate env e = None.
Proof.
  intros Hts Hd.
  assert (Hno : hasSetTimes e = None)
    by (unfold hasSetTimes; destruct Hts as [-> | ->]; reflexivity).
  unfold startDate, endDate. rewrite Hno. split; [|reflexivity].
  destruct (isCalendarDate_fields _ Hd) as (y & m & d & Hr & _).
  f_equal.
  change (dateString e ++ "T00:00:00") with (dateString e ++ String "T" "00:00:00").
  rewrite (parse_date_time _ _ _ y m d "T" Hr).
  unfold localMidnight, localClock. rewrite (dayNumber_fields _ _ _ _ _ Hr).
  reflexivity.
Qed.

Lemma C6_start_without_set_times_witness :
  startDate sampleEnv (eventOn "2025-06-14" (Some []))
  = Some "2025-06-14T00:00:00-04:00"
  /\ endDate sampleEnv (eventOn "2025-06-14" (Some [])) = None.
Proof.
  apply (C6_start_without_set_times sampleEnv (eventOn "2025-06-14" (Some []))).
  - right. reflexivity.
  - reflexivity.
Defined.

(* ===================================================================== *)
(** * The Eastern-time offset                                             *)
(* ===================================================================== *)

Lemma getETOffset_by_comparison (h : Host) (date : string) :
  isCalendarDate date = true ->
  getETOffset h date
  = if (Z.abs (jan1Local h (utcMidnight date)) <=? maxTime)
       && (tzOffsetAt h (utcMidnight date)
           <? tzOffsetAt h (jan1Local h (utcMidnight date)))
    then "-04:00" else "-05:00".
Proof.
  intros Hc. unfold getETOffset.
  destruct (parse_calendar h date Hc) as [-> _].
  unfold getFullYear, newDateJan1, jan1Local, utcMidnight, TimeClip. cbv zeta.
  match goal with
  | |- context [Z.abs ?j <=? maxTime] => destruct (Z.abs j <=? maxTime)
  end; reflexivity.
Qed.

(** C3 as the specification states it fails on a host on Sydney time:
    on 14 June 2025 the offset differs from that of 1 January, and the
    answer is still "-05:00". *)
Lemma C3_counterexample :
  ~ (getETOffset sydneyHost "2025-06-14" = "-04:00"
     <-> tzOffsetAt sydneyHost (utcMidnight "2025-06-14")
         <> tzOffsetAt sydneyHost (jan1Local sydneyHost (utcMidnight "2025-06-14"))).
Proof.
  intros [_ H].
  assert (E : getETOffset sydneyHost "2025-06-14" = "-05:00")
    by (vm_compute; reflexivity).
  rewrite E in H.
  assert (D : tzOffsetAt sydneyHost (utcMidnight "2025-06-14")
              <> tzOffsetAt sydneyHost (jan1Local sydneyHost (utcMidnight "2025-06-14")))
    by (vm_compute; discriminate).
  specialize (H D). discriminate H.
Qed.

(** C3 (amended).  For every calendar date and every host, the answer is
    "-04:00" or "-05:00"; it is "-04:00" exactly when the offset the host
    reports at midnight UTC of the date is strictly below the one it
    reports at local midnight of 1 January of the date's local year, that
    instant being in range, and "-05:00" otherwise. *)
Theorem C3_offset_by_comparison (h : Host) (date : string) :
  isCalendarDate date = true ->
  let t := utcMidnight date in
  let j := jan1Local h t in
  (getETOffset h date = "-04:00" \/ getETOffset h date = "-05:00")
  /\ (getETOffset h date = "-04:00"
      <-> inTimeRange j /\ tzOffsetAt h t < tzOffsetAt h j)
  /\ (getETOffset h date = "-05:00"
      <-> ~ (inTimeRange j /\ tzOffsetAt h t < tzOffsetAt h j)).
Proof.
  intros Hc t j. split; [apply getETOffset_cases|].
  rewrite (getETOffset_by_comparison h date Hc). fold t. fold j.
  unfold inTimeRange.
  destruct (Z.leb_spec (Z.abs j) maxTime) as [Hr|Hr];
    destruct (Z.ltb_spec (tzOffsetAt h t) (tzOffsetAt h j)) as [Hl|Hl];
    cbn [andb]; split; split; intros H;
    try discriminate H; try lia; try reflexivity; auto.
  all: exfalso; apply H; split; assumption.
Qed.

Lemma C3_offset_by_comparison_witness :
  getETOffset easternHost "2025-06-14" = "-04:00"
  /\ getETOffset easternHost "2025-01-14" = "-05:00".
Proof.
  split.
  - apply (C3_offset_by_comparison easternHost "2025-06-14"); [reflexivity|].
    split; [cbv; discriminate | vm_compute; reflexivity].
  - apply (C3_offset_by_comparison easternHost "2025-01-14"); [reflexivity|].
    intros [_ H]. vm_compute in H. discriminate H.
Defined.

(** On a host whose offset never exceeds the one of 1 January, New York
    among them, "strictly below" and "differs" say the same. *)
Lemma getETOffset_differs (h : Host) (date : string) :
  isCalendarDate date = true ->
  inTimeRange (jan1Local h (utcMidnight date)) ->
  tzOffsetAt h (utcMidnight date) <= tzOffsetAt h (jan1Local h (utcMidnight date)) ->
  (getETOffset h date = "-04:00"
   <-> tzOffsetAt h (utcMidnight date)
       <> tzOffsetAt h (jan1Local h (utcMidnight date))).
Proof.
  intros Hc Hr Hle. rewrite (getETOffset_by_comparison h date Hc).
  unfold inTimeRange in Hr. apply Z.leb_le in Hr. rewrite Hr. cbn [andb].
  destruct (Z.ltb_spec (tzOffsetAt h (utcMidnight date))
              (tzOffsetAt h (jan1Local h (utcMidnight date)))) as [L|L];
    split; intros G; try discriminate G; try lia; reflexivity.
Qed.

(* ===================================================================== *)
(** * Missing records                                                     *)
(* ===================================================================== *)

(** C9.  When no stored event has the requested slug, the page ends in
    the not-found outcome after exactly one query: nothing is asked a
    second time and no view is built from other data. *)
Theorem C9_page_not_found (env : Env) (now : Z) (slug : string) (db : Db)
  (log : list Query) :
  inTimeRange now -> inTimeRange (now + msAhead env) ->
  lookupEvent db slug = None ->
  Page env now slug db log = (NotFound, (log ++ [FindUniqueEvent slug])%list).
Proof.
  intros H1 H2 Hnone.
  unfold Page, bind, orThrow, findUnique.
  rewrite (eventsWhere_inRange env now slug H1 H2), Hnone. reflexivity.
Qed.

Lemma C9_page_not_found_witness :
  Page sampleEnv sampleNow "no-such-event" sampleDb []
  = (NotFound, [FindUniqueEvent "no-such-event"]).
Proof.
  apply (C9_page_not_found sampleEnv sampleNow "no-such-event" sampleDb []).
  - cbv; discriminate.
  - cbv; discriminate.
  - reflexivity.
Defined.

(** C10.  When no stored event has the requested slug, [generateMetadata]
    returns the empty metadata object after its one query; and on no
    store does it end in the not-found outcome or throw. *)
Theorem C10_metadata_of_missing_event (slug : string) (db : Db) (log : list Query) :
  lookupEvent db slug = None ->
  generateMetadata slug db log
    = (Returned emptyMetadata, (log ++ [FindUniqueEvent slug])%list)
  /\ (forall (db' : Db) (log' : list Query),
        exists m, fst (generateMetadata slug db' log') = Returned m).
Proof.
  intros Hnone. split.
  - unfold generateMetadata, bind, findUnique. now rewrite Hnone.
  - intros db' log'. unfold generateMetadata, bind, findUnique.
    destruct (lookupEvent db' slug); simpl; eexists; reflexivity.
Qed.

Lemma C10_metadata_of_missing_event_witness :
  generateMetadata "no-such-event" sampleDb []
  = (Returned emptyMetadata, [FindUniqueEvent "no-such-event"]).
Proof.
  apply (C10_metadata_of_missing_event "no-such-event" sampleDb []).
  reflexivity.
Defined.

(* ===================================================================== *)
(** * Further properties of the start and end instants                    *)
(* ===================================================================== *)

Lemma clockString_nonempty (H M : Z) : clockString H M <> "".
Proof.
  unfold clockString. destruct (pad 2 H); simpl; discriminate.
Qed.

Lemma endDate_of_last (env : Env) (e : EventWithArtist) (ts : list string)
  (H M : Z) :
  setTimes e = Some ts -> last ts "" = clockString H M ->
  endDate env e = Some (endDateOf (host env) (dateString e) (clockString H M)).
Proof.
  intros Hts Hlast. unfold endDate, hasSetTimes. rewrite Hts.
  destruct ts as [|t ts].
  - simpl in Hlast. symmetry in Hlast. now apply clockString_nonempty in Hlast.
  - now rewrite Hlast.
Qed.

(** X1.  Whenever the last set-time is an HH:MM whose hour or minute is
    below ten, on a calendar date and on any host, the end instant reads
    [NaN:NaN] after the date: the time rebuilt from the numbers is not
    a date. *)
Theorem X1_end_instant_NaN (env : Env) (e : EventWithArtist) (ts : list string)
  (H M : Z) :
  setTimes e = Some ts -> last ts "" = clockString H M ->
  isCalendarDate (dateString e) = true ->
  0 <= H < 24 -> 0 <= M < 60 -> H < 10 \/ M < 10 ->
  endDate env e
  = Some (dateString e ++ "TNaN:NaN:00" ++ getETOffset (host env) (dateString e)).
Proof.
  intros Hts Hlast Hd HH HM Hlow.
  rewrite (endDate_of_last env e ts H M Hts Hlast).
  now rewrite (endDateOf_leading_zero (host env) (dateString e) H M Hd HH HM Hlow).
Qed.

Lemma X1_end_instant_NaN_witness :
  endDate sampleEnv (eventOn "2025-09-05" (Some ["19:00"; "21:05"]))
  = Some "2025-09-05TNaN:NaN:00-04:00".
Proof.
  apply (X1_end_instant_NaN sampleEnv (eventOn "2025-09-05" (Some ["19:00"; "21:05"]))
           ["19:00"; "21:05"] 21 5).
  - reflexivity.
  - reflexivity.
  - reflexivity.
  - lia.
  - lia.
  - right. lia.
Defined.

(** X2.  When the hour and the minute of the last set-time are both at
    least ten, on a calendar date and on a host where the set-time and
    the time ninety minutes later are ordinary local times, the end
    instant is the event's date, the clock ninety minutes after the
    set-time taken modulo 24 hours, and the offset; it is an ISO-8601
    instant with offset. *)
Theorem X2_end_instant_value (env : Env) (e : EventWithArtist) (ts : list string)
  (H M : Z) :
  setTimes e = Some ts -> last ts "" = clockString H M ->
  isCalendarDate (dateString e) = true ->
  10 <= H < 24 -> 10 <= M < 60 ->
  keepsLocal (host env) (localClock (dateString e) (H * 60 + M)) ->
  keepsLocal (host env) (localClock (dateString e) (H * 60 + M + 90)) ->
  let ending :=
    dateString e ++ "T" ++ pad 2 (((H * 60 + M + 90) / 60) mod 24) ++ ":"
    ++ pad 2 ((M + 90) mod 60) ++ ":00" ++ getETOffset (host env) (dateString e) in
  endDate env e = Some ending /\ isISOInstant ending = true.
Proof.
  intros Hts Hlast Hd HH HM K1 K2 ending.
  rewrite (endDate_of_last env e ts H M Hts Hlast).
  pose proof (end_instant_is_ISO (host env) (dateString e) H M Hd HH HM K1 K2) as I.
  rewrite (endDateOf_two_digit (host env) (dateString e) H M Hd HH HM K1 K2) in *.
  split; [reflexivity | exact I].
Qed.

Lemma X2_end_instant_value_witness :
  endDate sampleEnv (eventOn "2025-06-14" (Some ["19:30"; "21:30"]))
  = Some "2025-06-14T23:00:00-04:00"
  /\ isISOInstant "2025-06-14T23:00:00-04:00" = true.
Proof.
  apply (X2_end_instant_value sampleEnv
           (eventOn "2025-06-14" (Some ["19:30"; "21:30"])) ["19:30"; "21:30"] 21 30).
  - reflexivity.
  - reflexivity.
  - reflexivity.
  - lia.
  - lia.
  - split; [vm_compute; reflexivity | cbv; discriminate].
  - split; [vm_compute; reflexivity | cbv; discriminate].
Defined.

(** X3.  When the first set-time is an HH:MM, on a calendar date, the
    start instant is the date, that clock with seconds [00], and the
    offset, whatever the later set-times; it is an ISO-8601 instant with
    offset. *)
Theorem X3_start_instant_value (env : Env) (e : EventWithArtist)
  (rest : list string) (H M : Z) :
  setTimes e = Some (clockString H M :: rest) ->
  isCalendarDate (dateString e) = true ->
  0 <= H < 24 -> 0 <= M < 60 ->
  let beginning :=
    dateString e ++ "T" ++ clockString H M ++ ":00"
    ++ getETOffset (host env) (dateString e) in
  startDate env e = Some beginning /\ isISOInstant beginning = true.
Proof.
  intros Hts Hd HH HM beginning. split.
  - unfold startDate, hasSetTimes. rewrite Hts. reflexivity.
  - now apply start_instant_is_ISO.
Qed.

Lemma X3_start_instant_value_witness :
  startDate sampleEnv (eventOn "2025-01-11" (Some ["19:30"; "21:30"]))
  = Some "2025-01-11T19:30:00-05:00"
  /\ isISOInstant "2025-01-11T19:30:00-05:00" = true.
Proof.
  apply (X3_start_instant_value sampleEnv
           (eventOn "2025-01-11" (Some ["19:30"; "21:30"])) ["21:30"] 19 30).
  - reflexivity.
  - reflexivity.
  - lia.
  - lia.
Defined.

Lemma compare_same_prefix (p x y : string) :
  String.compare (p ++ x) (p ++ y) = String.compare x y.
Proof. now rewrite compare_app, string_compare_refl. Qed.

Lemma pad2_compare (a b : Z) :
  0 <= a < 100 -> 0 <= b < 100 ->
  String.length (pad 2 a) = String.length (pad 2 b)
  /\ String.compare (pad 2 a) (pad 2 b) = (a ?= b).
Proof.
  intros Ha Hb.
  destruct (pad2_facts a Ha) as [Ra _]. destruct (pad2_facts b Hb) as [Rb _].
  destruct (readDigits_split _ _ _ _ _ Ra) as (p & Ep & Lp & Dp & Vp).
  destruct (readDigits_split _ _ _ _ _ Rb) as (q & Eq & Lq & Dq & Vq).
  rewrite append_empty_r in Ep, Eq. rewrite Ep, Eq. split; [congruence|].
  rewrite (compare_digits p q 0 Dp Dq) by (congruence || lia). congruence.
Qed.

(** X4.  When the last set-time is 22:30 or later (minute at least ten)
    and the first set-time is 02:00 or later, the end instant written is
    earlier than the start instant: both carry the event's date and the
    same offset, and the end clock has passed midnight. *)
Theorem X4_late_set_ends_before_start (env : Env) (e : EventWithArtist)
  (ts : list string) (H0 M0 H M : Z) :
  setTimes e = Some ts ->
  hd "" ts = clockString H0 M0 -> last ts "" = clockString H M ->
  isCalendarDate (dateString e) = true ->
  2 <= H0 < 24 -> 0 <= M0 < 60 -> H < 24 -> 10 <= M < 60 ->
  22 * 60 + 30 <= H * 60 + M ->
  keepsLocal (host env) (localClock (dateString e) (H * 60 + M)) ->
  keepsLocal (host env) (localClock (dateString e) (H * 60 + M + 90)) ->
  exists s f : string,
    startDate env e = Some s /\ endDate env e = Some f /\ String.ltb f s = true.
Proof.
  intros Hts Hhd Hlast Hd HH0 HM0 HH HM Hlate K1 K2.
  exists (dateString e ++ "T" ++ clockString H0 M0 ++ ":00"
          ++ getETOffset (host env) (dateString e)).
  exists (dateString e ++ "T" ++ pad 2 (((H * 60 + M + 90) / 60) mod 24) ++ ":"
          ++ pad 2 ((M + 90) mod 60) ++ ":00" ++ getETOffset (host env) (dateString e)).
  split; [|split].
  - unfold startDate, hasSetTimes. rewrite Hts.
    destruct ts as [|t ts'].
    + simpl in Hlast. symmetry in Hlast. now apply clockString_nonempty in Hlast.
    + simpl in Hhd. now rewrite Hhd.
  - rewrite (endDate_of_last env e ts H M Hts Hlast).
    now rewrite (endDateOf_two_digit (host env) (dateString e) H M Hd) by (assumption || lia).
  - unfold String.ltb. rewrite compare_same_prefix.
    cbn [String.append String.compare]. rewrite ascii_compare_refl.
    unfold clockString. rewrite append_assoc.
    set (a := ((H * 60 + M + 90) / 60) mod 24).
    assert (Ha : 0 <= a < 2) by (unfold a; Z.div_mod_to_equations; lia).
    destruct (pad2_compare a H0 ltac:(lia) ltac:(lia)) as [L C].
    rewrite (compare_app _ _ _ _ L), C.
    replace (a ?= H0) with Lt by (symmetry; apply Z.compare_lt_iff; lia).
    reflexivity.
Qed.

Lemma X4_late_set_ends_before_start_witness :
  exists s f : string,
    startDate sampleEnv (eventOn "2025-06-14" (Some ["22:30"; "23:45"])) = Some s
    /\ endDate sampleEnv (eventOn "2025-06-14" (Some ["22:30"; "23:45"])) = Some f
    /\ String.ltb f s = true.
Proof.
  apply (X4_late_set_ends_before_start sampleEnv
           (eventOn "2025-06-14" (Some ["22:30"; "23:45"])) ["22:30"; "23:45"]
           22 30 23 45).
  - reflexivity.
  - reflexivity.
  - reflexivity.
  - reflexivity.
  - lia.
  - lia.
  - lia.
  - lia.
  - lia.
  - split; [vm_compute; reflexivity | cbv; discriminate].
  - split; [vm_compute; reflexivity | cbv; discriminate].
Defined.

(* ===================================================================== *)
(** * Further properties of the offset helper                             *)
(* ===================================================================== *)

Lemma fixedHost_tzOffsetAt (k t : Z) : tzOffsetAt (fixedHost k) t = - k.
Proof.
  unfold tzOffsetAt, LocalTime, msPerMinute. cbn [LocalTZA fixedHost].
  unfold msPerMinute. Z.div_mod_to_equations. lia.
Qed.

(** X5.  On a host that keeps one offset all year, a server on UTC for
    one, the answer is "-05:00" for every input, summer dates
    included. *)
Theorem X5_fixed_host_always_standard (k : Z) (date : string) :
  getETOffset (fixedHost k) date = "-05:00".
Proof.
  unfold getETOffset.
  destruct (parse (fixedHost k) date) as [t|]; [|reflexivity].
  cbn [getTimezoneOffset].
  destruct (newDateJan1 (fixedHost k) (getFullYear (fixedHost k) (Some t))) as [j|];
    [|reflexivity].
  cbn [getTimezoneOffset numLt]. rewrite !fixedHost_tzOffsetAt, Z.ltb_irrefl.
  reflexivity.
Qed.

Lemma dstStartDay_bounds (y : Z) :
  DayFromYear y + 7 <= dstStartDay y /\ dstEndDay y < DayFromYear (y + 1).
Proof.
  unfold dstStartDay, dstEndDay.
  pose proof (sundayOnOrAfter_ge (MakeDay y 2 1)).
  pose proof (MakeDay_first_of_month y 2 ltac:(lia)).
  split; [lia|].
  assert (U : sundayOnOrAfter (MakeDay y 10 1) <= MakeDay y 10 1 + 6)
    by (unfold sundayOnOrAfter, WeekDay; Z.div_mod_to_equations; lia).
  pose proof (MakeDay_valid y 11 1 ltac:(lia)) as E. change (11 - 1) with 10 in E.
  pose proof (DaysBeforeMonth_succ y 10 ltac:(lia)) as S10.
  pose proof (DaysBeforeMonth_succ y 11 ltac:(lia)) as S11.
  change (10 + 1) with 11 in S10. change (11 + 1) with 12 in S11.
  rewrite DaysBeforeMonth_12 in S11.
  pose proof (DaysInMonth_bounds y 10). pose proof (DaysInMonth_bounds y 11).
  rewrite DayFromYear_succ. lia.
Qed.

Lemma YearFromTime_of_day (y day r : Z) :
  DayFromYear y <= day < DayFromYear (y + 1) -> 0 <= r < msPerDay ->
  YearFromTime (day * msPerDay + r) = y.
Proof.
  intros Hd Hr. unfold YearFromTime. apply YearFromDay_unique.
  replace (Day (day * msPerDay + r)) with day; [exact Hd|].
  unfold Day, msPerDay in *. Z.div_mod_to_equations. lia.
Qed.

(** On the New York host 1 January is on standard time in every year. *)
Lemma easternHost_jan1 (Y : Z) :
  let jl := MakeDate (MakeDay Y 0 1) (MakeTime 0 0 0 0) in
  UTC easternHost jl = jl + 5 * msPerHour
  /\ tzOffsetAt easternHost (UTC easternHost jl) = 300.
Proof.
  cbv zeta.
  replace (MakeDate (MakeDay Y 0 1) (MakeTime 0 0 0 0)) with (DayFromYear Y * msPerDay + 0).
  2:{ replace 0 with (1 - 1) at 2 by lia. rewrite (MakeDay_valid Y 1 1) by lia.
      change (1 - 1) with 0. change (DaysBeforeMonth Y 0) with 0.
      unfold MakeDate, MakeTime. lia. }
  pose proof (dstStartDay_bounds Y) as [B _].
  pose proof (DayFromYear_succ Y) as S. pose proof (DaysInYear_cases Y) as C.
  assert (E1 : easternTZA (DayFromYear Y * msPerDay + 0) false = -5 * msPerHour).
  { unfold easternTZA. cbv zeta.
    rewrite (YearFromTime_of_day Y (DayFromYear Y) 0) by (unfold msPerDay; lia).
    fold (dstStartDay Y). fold (dstEndDay Y).
    replace (dstStartDay Y * msPerDay + 3 * msPerHour <=? DayFromYear Y * msPerDay + 0)
      with false; [reflexivity|].
    symmetry. apply Z.leb_gt. unfold msPerDay, msPerHour. lia. }
  assert (U : UTC easternHost (DayFromYear Y * msPerDay + 0)
              = DayFromYear Y * msPerDay + 0 + 5 * msPerHour).
  { unfold UTC. cbn [LocalTZA easternHost]. rewrite E1. lia. }
  split; [exact U|]. rewrite U.
  unfold tzOffsetAt, LocalTime. cbn [LocalTZA easternHost].
  assert (E2 : easternTZA (DayFromYear Y * msPerDay + 0 + 5 * msPerHour) true
               = -5 * msPerHour).
  { unfold easternTZA. cbv zeta.
    replace (DayFromYear Y * msPerDay + 0 + 5 * msPerHour + -5 * msPerHour)
      with (DayFromYear Y * msPerDay + 0) by lia.
    rewrite (YearFromTime_of_day Y (DayFromYear Y) 0) by (unfold msPerDay; lia).
    fold (dstStartDay Y). fold (dstEndDay Y).
    replace (dstStartDay Y * msPerDay + 2 * msPerHour - -5 * msPerHour
             <=? DayFromYear Y * msPerDay + 0 + 5 * msPerHour)
      with false; [reflexivity|].
    symmetry. apply Z.leb_gt. unfold msPerDay, msPerHour. lia. }
  rewrite E2. unfold msPerHour, msPerMinute. Z.div_mod_to_equations. lia.
Qed.

(** The offset the New York host reports at midnight UTC of a day of
    year [y]. *)
Lemma easternHost_offset_at_midnight (y day : Z) :
  DayFromYear y <= day < DayFromYear (y + 1) ->
  tzOffsetAt easternHost (day * msPerDay)
  = if (dstStartDay y <? day) && (day <=? dstEndDay y) then 240 else 300.
Proof.
  intros Hd. unfold tzOffsetAt, LocalTime. cbn [LocalTZA easternHost].
  pose proof (dstStartDay_bounds y) as [B1 B2].
  assert (E : easternTZA (day * msPerDay) true
              = if (dstStartDay y <? day) && (day <=? dstEndDay y)
                then -4 * msPerHour else -5 * msPerHour).
  { unfold easternTZA. cbv zeta.
    destruct (Z.eq_dec day (DayFromYear y)) as [J | J].
    - (* 1 January: the evening before belongs to the year before *)
      pose proof (dstStartDay_bounds (y - 1)) as [_ B3].
      replace (y - 1 + 1) with y in B3 by lia.
      pose proof (DayFromYear_succ (y - 1)) as S.
      replace (y - 1 + 1) with y in S by lia.
      pose proof (DaysInYear_cases (y - 1)) as C.
      replace (day * msPerDay + -5 * msPerHour)
        with ((day - 1) * msPerDay + 19 * msPerHour)
        by (unfold msPerDay, msPerHour; lia).
      assert (R : DayFromYear (y - 1) <= day - 1 < DayFromYear (y - 1 + 1))
        by (replace (y - 1 + 1) with y by lia; lia).
      rewrite (YearFromTime_of_day (y - 1) (day - 1) (19 * msPerHour) R)
        by (unfold msPerDay, msPerHour; lia).
      fold (dstStartDay (y - 1)). fold (dstEndDay (y - 1)).
      replace (day * msPerDay <? dstEndDay (y - 1) * msPerDay + 2 * msPerHour - -4 * msPerHour)
        with false by (symmetry; apply Z.ltb_ge; unfold msPerDay, msPerHour; lia).
      replace (dstStartDay y <? day) with false by (symmetry; apply Z.ltb_ge; lia).
      now rewrite andb_false_r.
    - replace (day * msPerDay + -5 * msPerHour)
        with ((day - 1) * msPerDay + 19 * msPerHour)
        by (unfold msPerDay, msPerHour; lia).
      rewrite (YearFromTime_of_day y (day - 1) (19 * msPerHour))
        by (unfold msPerDay, msPerHour; lia).
      fold (dstStartDay y). fold (dstEndDay y).
      replace (dstStartDay y * msPerDay + 2 * msPerHour - -5 * msPerHour <=? day * msPerDay)
        with (dstStartDay y <? day).
      2:{ destruct (Z.ltb_spec (dstStartDay y) day); symmetry;
          [apply Z.leb_le | apply Z.leb_gt]; unfold msPerDay, msPerHour; lia. }
      replace (day * msPerDay <? dstEndDay y * msPerDay + 2 * msPerHour - -4 * msPerHour)
        with (day <=? dstEndDay y).
      2:{ destruct (Z.leb_spec day (dstEndDay y)); symmetry;
          [apply Z.ltb_lt | apply Z.ltb_ge]; unfold msPerDay, msPerHour; lia. }
      reflexivity. }
  rewrite E.
  destruct ((dstStartDay y <? day) && (day <=? dstEndDay y));
    unfold msPerHour, msPerMinute; Z.div_mod_to_equations; lia.
Qed.

Lemma calendar_year (date : string) :
  isCalendarDate date = true ->
  let y := YearFromDay (dayNumber date) in
  DayFromYear y <= dayNumber date < DayFromYear (y + 1) /\ 0 <= y < 10000.
Proof.
  intros Hc. cbv zeta.
  destruct (calendar_valid date Hc) as (y & m & d & Hr & V & Hy).
  rewrite (dayNumber_fields _ _ _ _ _ Hr).
  pose proof (MakeDay_within_year y m d V) as W.
  now rewrite (YearFromDay_unique _ _ W).
Qed.

Lemma MakeDay_jan1 (Y : Z) : MakeDay Y 0 1 = DayFromYear Y.
Proof.
  pose proof (MakeDay_valid Y 1 1 ltac:(lia)) as E.
  change (1 - 1) with 0 in E. change (DaysBeforeMonth Y 0) with 0 in E. lia.
Qed.

Lemma jan1_inRange (yr : Z) :
  -1 <= yr < 10000 ->
  (Z.abs (MakeDate (MakeDay yr 0 1) (MakeTime 0 0 0 0) + 5 * msPerHour) <=? maxTime)
  = true.
Proof.
  intros Hyr. apply Z.leb_le. rewrite MakeDay_jan1.
  pose proof (DayFromYear_mono (-1) yr ltac:(lia)) as L.
  pose proof (DayFromYear_mono yr 10000 ltac:(lia)) as R.
  change (DayFromYear (-1)) with (-719893) in L.
  change (DayFromYear 10000) with 2932897 in R.
  unfold MakeDate, MakeTime, maxTime, msPerDay, msPerHour, msPerMinute, msPerSecond.
  lia.
Qed.



(* ===================================================================== *)
(** * Further properties of the event window and of a request             *)
(* ===================================================================== *)

Lemma msAhead_days (env : Env) : msAhead env = DAYS_AHEAD env * msPerDay.
Proof. unfold msAhead, msPerDay. lia. Qed.

(** The window of the query on a calendar date, read on day numbers. *)
Lemma matchesWhere_days (env : Env) (now : Z) (slug : string) (e : OtherEvent) :
  inFourDigitYears now -> inFourDigitYears (now + msAhead env) ->
  isCalendarDate (other_dateString e) = true ->
  (matchesWhere {| gte := utcDay now; lt := utcDay (now + msAhead env);
                   notSlug := slug |} e = true
   <-> other_slug e <> slug
       /\ Day now <= dayNumber (other_dateString e) < Day now + DAYS_AHEAD env).
Proof.
  intros Hnow Hcut Hc. unfold matchesWhere, String.leb, String.ltb. cbn [gte lt notSlug].
  rewrite (String.compare_antisym (utcDay now) (other_dateString e)).
  rewrite !(compare_calendar_utcDay _ _ Hc) by assumption.
  rewrite msAhead_days, Day_add_days.
  rewrite !andb_true_iff, negb_true_iff, String.eqb_neq.
  destruct (Z.compare_spec (dayNumber (other_dateString e)) (Day now));
    destruct (Z.compare_spec (dayNumber (other_dateString e))
                (Day now + DAYS_AHEAD env));
    cbn [CompOpp]; intuition (try discriminate; try lia).
Qed.

(** X7.  Among calendar-dated candidates the event window holds exactly
    those, other than the viewed one, dated from the UTC day of [now] up
    to [DAYS_AHEAD] - 1 days later: the day counted is the UTC day, and
    the day [DAYS_AHEAD] days ahead is already outside. *)
Theorem X7_window_by_days (env : Env) (now : Z) (slug : string)
  (cands : list OtherEvent) :
  inFourDigitYears now -> inFourDigitYears (now + msAhead env) ->
  Forall (fun e => isCalendarDate (other_dateString e) = true) cands ->
  exists out,
    eventWindow env now slug cands = Some out
    /\ forall e,
         In e out
         <-> In e cands /\ other_slug e <> slug
             /\ Day now <= dayNumber (other_dateString e) < Day now + DAYS_AHEAD env.
Proof.
  intros Hnow Hcut Hc.
  destruct (eventWindow_general env now slug cands
              (inFourDigitYears_inRange _ Hnow) (inFourDigitYears_inRange _ Hcut))
    as (E & _ & P).
  rewrite (window_filter_redundant env now slug cands Hcut Hc) in P.
  eexists. split; [exact E|]. intros e.
  rewrite Forall_forall in Hc. split.
  - intros He. apply (Permutation_in _ P) in He. apply filter_In in He.
    destruct He as [He Hm]. split; [exact He|].
    now apply (matchesWhere_days env now slug e Hnow Hcut (Hc e He)).
  - intros (He & Hs & Hd). apply (Permutation_in _ (Permutation_sym P)).
    apply filter_In. split; [exact He|].
    now apply (matchesWhere_days env now slug e Hnow Hcut (Hc e He)).
Qed.

Lemma X7_window_by_days_witness :
  exists out,
    eventWindow sampleEnv sampleNow "late-session" (scenario ++ outsideWindow)
    = Some out
    /\ forall e,
         In e out
         <-> In e (scenario ++ outsideWindow) /\ other_slug e <> "late-session"
             /\ 20253 <= dayNumber (other_dateString e) < 20253 + 30.
Proof.
  apply (X7_window_by_days sampleEnv sampleNow "late-session"
           (scenario ++ outsideWindow)).
  - cbv; split; [discriminate | reflexivity].
  - cbv; split; [discriminate | reflexivity].
  - repeat constructor.
Defined.

Lemma window_closed (env : Env) (now : Z) (slug : string) (e : OtherEvent) :
  inFourDigitYears now -> inFourDigitYears (now + msAhead env) ->
  DAYS_AHEAD env <= 0 ->
  matchesWhere {| gte := utcDay now; lt := utcDay (now + msAhead env);
                  notSlug := slug |} e = false.
Proof.
  intros Hnow Hcut Hdays.
  destruct (matchesWhere _ e) eqn:Hm; [exfalso | reflexivity].
  unfold matchesWhere in Hm. cbn [gte lt notSlug] in Hm.
  rewrite !andb_true_iff in Hm. destruct Hm as [[Hge Hlt] _].
  apply string_leb_iff in Hge. unfold String.ltb in Hlt.
  destruct (String.compare (other_dateString e) (utcDay (now + msAhead env))) eqn:C;
    try discriminate.
  assert (L : String.compare (utcDay now) (utcDay (now + msAhead env)) = Lt).
  { destruct Hge as [G | G]; [eapply string_compare_lt_trans; eassumption|].
    now rewrite G. }
  rewrite (compare_utcDays _ _ Hnow Hcut), msAhead_days, Day_add_days in L.
  rewrite Z.compare_lt_iff in L. lia.
Qed.

Lemma filter_none {A : Type} (f : A -> bool) (l : list A) :
  (forall x, f x = false) -> filter f l = [].
Proof.
  intros H. induction l as [|x l IH]; simpl; [reflexivity|]. now rewrite H.
Qed.

Lemma queryEvents_closed (env : Env) (now : Z) (slug : string)
  (cands : list OtherEvent) :
  inFourDigitYears now -> inFourDigitYears (now + msAhead env) ->
  DAYS_AHEAD env <= 0 ->
  queryEvents env {| gte := utcDay now; lt := utcDay (now + msAhead env);
                     notSlug := slug |} cands = [].
Proof.
  intros Hnow Hcut Hdays. unfold queryEvents.
  rewrite filter_none by (intros e; now apply window_closed).
  apply Permutation_nil, orderBy_perm.
Qed.

(** What a request that returns a view went through. *)
Lemma Page_returned (env : Env) (now : Z) (slug : string) (db : Db)
  (log log' : list Query) (v : View) :
  Page env now slug db log = (Returned v, log') ->
  exists w r ld,
    eventsWhere env now slug = Some w
    /\ lookupEvent db slug = Some r
    /\ structuredData env (selectPage env w db r) = Some ld
    /\ v = {| jsonLd := ld;
              moreDates := moreDatesSection env now (selectPage env w db r) |}
    /\ log' = (log ++ [FindUniqueEvent slug])%list.
Proof.
  unfold Page, bind, orThrow, findUnique.
  destruct (eventsWhere env now slug) as [w|]; [|discriminate].
  destruct (lookupEvent db slug) as [r|]; simpl; [|discriminate].
  destruct (structuredData env (selectPage env w db r)) as [ld|] eqn:Hld; simpl;
    [|discriminate].
  unfold ret. intros [= <- <-]. exists w, r, ld. repeat split. exact Hld.
Qed.

Lemma moreDatesSection_selected (env : Env) (now : Z) (w : EventsWhere) (db : Db)
  (r : EventRow) :
  moreDatesSection env now (selectPage env w db r)
  = match findArtist db (row_artistId r) with
    | Some a =>
        match queryEvents env w (artistEvents db (arow_id a)) with
        | [] => None
        | _ :: _ =>
            Some (moreDatesFilter env now
                    (queryEvents env w (artistEvents db (arow_id a))))
        end
    | None => None
    end.
Proof.
  unfold moreDatesSection, selectPage. cbn [artist].
  destruct (findArtist db (row_artistId r)) as [a|]; [|reflexivity].
  cbn [option_map events]. reflexivity.
Qed.

(** X8.  With a look-ahead of zero or fewer days the window is empty
    whatever the candidates, and the page never shows the "More Dates"
    section. *)
Theorem X8_no_look_ahead_no_dates (env : Env) (now : Z) (slug : string) :
  inFourDigitYears now -> inFourDigitYears (now + msAhead env) ->
  DAYS_AHEAD env <= 0 ->
  (forall cands : list OtherEvent, eventWindow env now slug cands = Some [])
  /\ (forall (db : Db) (log log' : list Query) (v : View),
        Page env now slug db log = (Returned v, log') -> moreDates v = None).
Proof.
  intros Hnow Hcut Hdays.
  pose proof (eventsWhere_inRange env now slug
                (inFourDigitYears_inRange _ Hnow) (inFourDigitYears_inRange _ Hcut))
    as Ew.
  split.
  - intros cands. unfold eventWindow. rewrite Ew.
    now rewrite (queryEvents_closed env now slug cands Hnow Hcut Hdays).
  - intros db log log' v HP.
    destruct (Page_returned _ _ _ _ _ _ _ HP) as (w & r & ld & Hw & _ & _ & -> & _).
    rewrite Ew in Hw. injection Hw as <-.
    cbn [moreDates]. rewrite moreDatesSection_selected.
    destruct (findArtist db (row_artistId r)) as [a|]; [|reflexivity].
    now rewrite (queryEvents_closed env now slug _ Hnow Hcut Hdays).
Qed.

Lemma X8_no_look_ahead_no_dates_witness :
  eventWindow (siteOn easternHost 0) sampleNow "late-session" scenario = Some [].
Proof.
  apply (X8_no_look_ahead_no_dates (siteOn easternHost 0) sampleNow "late-session").
  - cbv; split; [discriminate | reflexivity].
  - cbv; split; [discriminate | reflexivity].
  - cbv; discriminate.
Defined.

Lemma artistEvents_calendar (db : Db) (aid : string) :
  Forall (fun r => isCalendarDate (row_dateString r) = true) (db_events db) ->
  Forall (fun e => isCalendarDate (other_dateString e) = true) (artistEvents db aid).
Proof.
  intros H. rewrite Forall_forall in *. intros e He.
  unfold artistEvents in He. apply in_map_iff in He.
  destruct He as (r & <- & Hr). apply filter_In in Hr. now apply H.
Qed.

(** X9.  When every stored date string is a calendar date, the list the
    page shows under "More Dates" is the query result whole, the filter
    having dropped nothing, and it is never empty. *)
Theorem X9_more_dates_never_empty (env : Env) (now : Z) (slug : string) (db : Db)
  (log log' : list Query) (v : View) (out : list OtherEvent) :
  inFourDigitYears now -> inFourDigitYears (now + msAhead env) ->
  Forall (fun r => isCalendarDate (row_dateString r) = true) (db_events db) ->
  Page env now slug db log = (Returned v, log') ->
  moreDates v = Some out ->
  out <> []
  /\ exists aid,
       out = queryEvents env {| gte := utcDay now; lt := utcDay (now + msAhead env);
                                notSlug := slug |} (artistEvents db aid).
Proof.
  intros Hnow Hcut Hcal HP Hm.
  pose proof (eventsWhere_inRange env now slug
                (inFourDigitYears_inRange _ Hnow) (inFourDigitYears_inRange _ Hcut))
    as Ew.
  destruct (Page_returned _ _ _ _ _ _ _ HP) as (w & r & ld & Hw & _ & _ & -> & _).
  rewrite Ew in Hw. injection Hw as <-.
  cbn [moreDates] in Hm. rewrite moreDatesSection_selected in Hm.
  destruct (findArtist db (row_artistId r)) as [a|]; [|discriminate].
  set (w := {| gte := utcDay now; lt := utcDay (now + msAhead env); notSlug := slug |}) in *.
  assert (Hid : moreDatesFilter env now (queryEvents env w (artistEvents db (arow_id a)))
                = queryEvents env w (artistEvents db (arow_id a))).
  { unfold moreDatesFilter. apply forallb_filter_id. apply forallb_forall.
    intros e He. apply queryEvents_In in He. destruct He as [He Hmw].
    pose proof (artistEvents_calendar db (arow_id a) Hcal) as Hc.
    rewrite Forall_forall in Hc.
    apply withinCutoff_before_cutoffDay; [now apply Hc | exact Hcut |].
    unfold matchesWhere in Hmw. rewrite !andb_true_iff in Hmw.
    now destruct Hmw as [[_ ?] _]. }
  destruct (queryEvents env w (artistEvents db (arow_id a))) as [|x q] eqn:Hq;
    [discriminate|].
  assert (Eo : out = x :: q) by (rewrite <- Hid; congruence). subst out.
  split; [discriminate|].
  exists (arow_id a). now rewrite Hq.
Qed.

Lemma X9_more_dates_never_empty_witness :
  exists v,
    Page sampleEnv sampleNow "late-session" clubDb []
    = (Returned v, [FindUniqueEvent "late-session"])
    /\ exists out, moreDates v = Some out /\ out <> [].
Proof.
  eexists. split; [vm_compute; reflexivity|].
  eexists. split; [reflexivity|].
  eapply (X9_more_dates_never_empty sampleEnv sampleNow "late-session" clubDb []).
  - cbv; split; [discriminate | reflexivity].
  - cbv; split; [discriminate | reflexivity].
  - repeat constructor.
  - vm_compute; reflexivity.
  - reflexivity.
Defined.

Lemma describe_nonempty (logline artistName : option string) (venueName : string) :
  describe logline artistName venueName <> "".
Proof.
  unfold describe, orElse.
  destruct logline as [l|]; [destruct (String.eqb_spec l "")|]; try assumption;
    cbn [String.append]; discriminate.
Qed.

Lemma describe_logline (l : string) (artistName : option string) (venueName : string) :
  l <> "" -> describe (Some l) artistName venueName = l.
Proof.
  intros H. unfold describe, orElse. apply String.eqb_neq in H. now rewrite H.
Qed.

(** X10.  For a stored event the metadata carries one title,
    "<name> at <venue> | Atrium Jazz", and one description in its three
    places (page, Open Graph, Twitter), and the Open Graph address ends
    in the slug.  The description is the logline when there is a
    non-empty one and a "Join ..." sentence otherwise, so it is never
    empty. *)
Theorem X10_metadata_of_stored_event (slug : string) (db : Db) (log : list Query)
  (r : EventRow) :
  lookupEvent db slug = Some r ->
  exists d : string,
    let t := row_name r ++ " at " ++ venue_name (row_venue r) ++ " | Atrium Jazz" in
    generateMetadata slug db log
    = (Returned
         {| title := Some t;
            description := Some d;
            openGraph := Some {| og_title := t; og_description := d;
                                 og_url := "https://www.atriumjazz.com/event/" ++ slug |};
            twitter := Some {| card := "summary_large_image";
                               tw_title := t; tw_description := d |} |},
       (log ++ [FindUniqueEvent slug])%list)
    /\ d <> ""
    /\ (forall l, row_logline r = Some l -> l <> "" -> d = l)
    /\ (row_logline r = None \/ row_logline r = Some "" ->
        exists who,
          d = "Join " ++ who ++ " at " ++ venue_name (row_venue r)
              ++ " for an unforgettable jazz experience."
          /\ who <> "").
Proof.
  intros Hr.
  exists (describe (row_logline r)
            (option_map arow_name (findArtist db (row_artistId r)))
            (venue_name (row_venue r))).
  cbv zeta. split; [|split; [|split]].
  - unfold generateMetadata, bind, findUnique. rewrite Hr. reflexivity.
  - apply describe_nonempty.
  - intros l Hl Hne. rewrite Hl. now apply describe_logline.
  - intros Hl.
    exists (orElse (option_map arow_name (findArtist db (row_artistId r))) "us").
    split.
    + unfold describe. destruct Hl as [-> | ->]; reflexivity.
    + unfold orElse.
      destruct (option_map arow_name (findArtist db (row_artistId r))) as [n|];
        [destruct (String.eqb_spec n "")|]; try assumption; discriminate.
Qed.

Lemma X10_metadata_of_stored_event_witness :
  exists d : string,
    fst (generateMetadata "late-session" clubDb [])
    = Returned
        {| title := Some "late-session at Smalls | Atrium Jazz";
           description := Some d;
           openGraph :=
             Some {| og_title := "late-session at Smalls | Atrium Jazz";
                     og_description := d;
                     og_url := "https://www.atriumjazz.com/event/late-session" |};
           twitter :=
             Some {| card := "summary_large_image";
                     tw_title := "late-session at Smalls | Atrium Jazz";
                     tw_description := d |} |}
    /\ d <> "".
Proof.
  destruct (X10_metadata_of_stored_event "late-session" clubDb []
              (rowOn "late-session" "2025-06-14" ["22:30"; "23:15"]) eq_refl)
    as (d & E & N & _).
  exists d. split; [|exact N]. rewrite E. reflexivity.
Defined.

(** X11.  The description in the structured data of a rendered page is
    the description [generateMetadata] returns for the same slug and
    store. *)
Theorem X11_descriptions_agree (env : Env) (now : Z) (slug : string) (db : Db)
  (log1 log1' log2 log2' : list Query) (v : View) (m : Metadata) :
  Page env now slug db log1 = (Returned v, log1') ->
  generateMetadata slug db log2 = (Returned m, log2') ->
  description m = Some (ld_description (jsonLd v)).
Proof.
  intros HP HM.
  destruct (Page_returned _ _ _ _ _ _ _ HP) as (w & r & ld & _ & Hr & Hld & -> & _).
  unfold generateMetadata, bind, findUnique in HM. rewrite Hr in HM.
  cbn [option_map] in HM. unfold ret in HM. injection HM as <- _.
  cbn [description jsonLd].
  unfold structuredData in Hld.
  destruct (startDate env (selectPage env w db r)); [|discriminate].
  injection Hld as <-. cbn [ld_description].
  unfold selectPage, selectMeta. cbn.
  f_equal. f_equal.
  destruct (findArtist db (row_artistId r)); reflexivity.
Qed.

Lemma X11_descriptions_agree_witness :
  exists v m,
    Page sampleEnv sampleNow "late-session" clubDb []
    = (Returned v, [FindUniqueEvent "late-session"])
    /\ generateMetadata "late-session" clubDb []
       = (Returned m, [FindUniqueEvent "late-session"])
    /\ description m = Some (ld_description (jsonLd v)).
Proof.
  eexists. eexists.
  split; [vm_compute; reflexivity|]. split; [vm_compute; reflexivity|].
  eapply (X11_descriptions_agree sampleEnv sampleNow "late-session" clubDb [] _ [] _).
  - vm_compute; reflexivity.
  - vm_compute; reflexivity.
Defined.

(** X12.  A request sends at most one query, for the requested slug:
    [generateMetadata] always exactly one, [Page] exactly one unless it
    throws while building the query, before any is sent. *)
Theorem X12_one_query_per_request (env : Env) (now : Z) (slug : string)
  (db : Db) (log : list Query) :
  snd (generateMetadata slug db log) = (log ++ [FindUniqueEvent slug])%list
  /\ (snd (Page env now slug db log) = (log ++ [FindUniqueEvent slug])%list
      \/ Page env now slug db log = (Thrown, log)).
Proof.
  split.
  - unfold generateMetadata, bind, findUnique.
    destruct (lookupEvent db slug); reflexivity.
  - unfold Page, bind, orThrow, findUnique.
    destruct (eventsWhere env now slug) as [w|]; [left | now right].
    destruct (lookupEvent db slug) as [r|]; cbn [option_map]; [|reflexivity].
    destruct (structuredData env (selectPage env w db r)); reflexivity.
Qed.

(** X13.  With [now] and [now] plus the horizon valid time values, the
    page ends in the not-found outcome exactly when no stored event has
    the slug; and a view it returns carries the name of the stored event
    with that slug. *)
Theorem X13_not_found_iff_absent (env : Env) (now : Z) (slug : string)
  (db : Db) (log : list Query) :
  inTimeRange now -> inTimeRange (now + msAhead env) ->
  (fst (Page env now slug db log) = NotFound <-> lookupEvent db slug = None)
  /\ (forall v, fst (Page env now slug db log) = Returned v ->
        exists r, lookupEvent db slug = Some r /\ ld_name (jsonLd v) = row_name r).
Proof.
  intros H1 H2. unfold Page, bind, orThrow, findUnique.
  rewrite (eventsWhere_inRange env now slug H1 H2).
  set (w := {| gte := utcDay now; lt := utcDay (now + msAhead env); notSlug := slug |}).
  destruct (lookupEvent db slug) as [r|]; cbn [option_map fst].
  - unfold structuredData.
    destruct (startDate env (selectPage env w db r)) as [s|]; cbn [fst]; split.
    + split; discriminate.
    + unfold ret. cbn [fst]. intros v [= <-]. exists r. split; reflexivity.
    + split; discriminate.
    + discriminate.
  - unfold notFound. cbn [fst]. split; [split; reflexivity | discriminate].
Qed.

Lemma X13_not_found_iff_absent_witness :
  fst (Page sampleEnv sampleNow "no-such-event" clubDb []) = NotFound.
Proof.
  apply (X13_not_found_iff_absent sampleEnv sampleNow "no-such-event" clubDb []).
  - cbv; discriminate.
  - cbv; discriminate.
  - reflexivity.
Defined.

(** X16.  With [now] and [now] plus the horizon valid time values, a
    stored event that has set-times always renders: the page returns a
    view with an end instant after its one query, never the not-found
    outcome and never an exception.  A view returned for a stored event
    without set-times has no end instant. *)
Theorem X16_event_with_set_times_renders (env : Env) (now : Z) (slug : string)
  (db : Db) (log : list Query) (r : EventRow) :
  inTimeRange now -> inTimeRange (now + msAhead env) ->
  lookupEvent db slug = Some r ->
  (row_setTimes r <> [] ->
   exists v f,
     Page env now slug db log = (Returned v, (log ++ [FindUniqueEvent slug])%list)
     /\ ld_endDate (jsonLd v) = Some f)
  /\ (row_setTimes r = [] ->
      forall v, fst (Page env now slug db log) = Returned v ->
                ld_endDate (jsonLd v) = None).
Proof.
  intros H1 H2 Hr. unfold Page, bind, orThrow, findUnique.
  rewrite (eventsWhere_inRange env now slug H1 H2), Hr. cbn [option_map].
  set (w := {| gte := utcDay now; lt := utcDay (now + msAhead env); notSlug := slug |}).
  unfold structuredData, startDate, endDate, hasSetTimes.
  cbn [selectPage setTimes dateString].
  split.
  - intros Hne. destruct (row_setTimes r) as [|t ts]; [contradiction|].
    eexists. eexists. split; reflexivity.
  - intros He. rewrite He.
    destruct (formatInTimeZone env _ _ _); cbn [fst]; [|discriminate].
    unfold ret. cbn [fst]. now intros v [= <-].
Qed.

Lemma X16_event_with_set_times_renders_witness :
  exists v f,
    Page sampleEnv sampleNow "village-set" clubDb []
    = (Returned v, [FindUniqueEvent "village-set"])
    /\ ld_endDate (jsonLd v) = Some f.
Proof.
  apply (X16_event_with_set_times_renders sampleEnv sampleNow "village-set" clubDb []
           (rowOn "village-set" "2025-06-24" ["19:30"; "21:30"])).
  - cbv; discriminate.
  - cbv; discriminate.
  - reflexivity.
  - discriminate.
Defined.

(* ===================================================================== *)
(** * The header date and the location link                               *)
(* ===================================================================== *)

Lemma MakeDay_inj (y m d y' m' d' : Z) :
  validYMD y m d -> validYMD y' m' d' ->
  MakeDay y (m - 1) d = MakeDay y' (m' - 1) d' ->
  y = y' /\ m = m' /\ d = d'.
Proof.
  intros V V' E.
  pose proof (MakeDay_key _ _ _ _ _ _ V V') as K.
  rewrite E, Z.compare_refl in K. apply Z.compare_eq_iff in K.
  destruct V as [Hm Hd], V' as [Hm' Hd'].
  pose proof (DaysInMonth_bounds y (m - 1)).
  pose proof (DaysInMonth_bounds y' (m' - 1)).
  unfold dateKey in K. lia.
Qed.

Lemma Day_of_midnight (day : Z) : Day (day * msPerDay) = day.
Proof. unfold Day, msPerDay. Z.div_mod_to_equations. lia. Qed.

(** The civil date of midnight UTC of a calendar day is that day. *)
Lemma civil_of_MakeDay (y m d : Z) :
  validYMD y m d ->
  YearFromTime (MakeDay y (m - 1) d * msPerDay) = y
  /\ MonthFromTime (MakeDay y (m - 1) d * msPerDay) + 1 = m
  /\ DateFromTime (MakeDay y (m - 1) d * msPerDay) = d.
Proof.
  intros V.
  destruct (civil_of_time (MakeDay y (m - 1) d * msPerDay)) as [V' E].
  rewrite Day_of_midnight in E.
  apply (MakeDay_inj _ _ _ _ _ _ V' V).
  etransitivity; [|exact E]. f_equal. lia.
Qed.

(** X14.  For a calendar date the header shows, on every host, the
    weekday of that day, the short name of the month written in the date
    string and its day of the month without padding. *)
Theorem X14_header_shows_the_date (h : Host) (e : EventWithArtist) (y m d : Z) :
  readDate (dateString e) = Some (y, m, d, "") ->
  d <= DaysInMonth y (m - 1) ->
  headerDate h e
  = weekdayLong (WeekDay (dayNumber (dateString e))) ++ ", " ++ monthShort (m - 1)
    ++ " " ++ natString d.
Proof.
  intros Hr Hd.
  assert (Hc : isCalendarDate (dateString e) = true)
    by (unfold isCalendarDate; rewrite Hr; now apply Z.leb_le).
  destruct (calendar_valid _ Hc) as (y' & m' & d' & Hr' & V & _).
  rewrite Hr in Hr'. injection Hr' as <- <- <-.
  unfold headerDate. destruct (parse_calendar h _ Hc) as [-> _].
  rewrite (dayNumber_fields _ _ _ _ _ Hr).
  destruct (civil_of_MakeDay y m d V) as (_ & M & Dd).
  unfold toLocaleDateStringUTC. rewrite Day_of_midnight, Dd.
  now replace (MonthFromTime (MakeDay y (m - 1) d * msPerDay)) with (m - 1) by lia.
Qed.

Lemma X14_header_shows_the_date_witness :
  headerDate sydneyHost (eventOn "2025-06-14" None) = "Saturday, Jun 14"
  /\ headerDate easternHost (eventOn "2025-06-14" None) = "Saturday, Jun 14".
Proof.
  split.
  - apply (X14_header_shows_the_date sydneyHost (eventOn "2025-06-14" None) 2025 6 14).
    + reflexivity.
    + cbv; discriminate.
  - apply (X14_header_shows_the_date easternHost (eventOn "2025-06-14" None) 2025 6 14).
    + reflexivity.
    + cbv; discriminate.
Defined.

Lemma allChars_app (f : ascii -> bool) (a b : string) :
  allChars f (a ++ b) = allChars f a && allChars f b.
Proof.
  induction a as [|c a IH]; simpl; [reflexivity|]. now rewrite IH, andb_assoc.
Qed.

Lemma encoded_byte (c : ascii) :
  let piece := if isUnreserved c then String c "" else percentByte c in
  allChars isQuerySafe piece = true
  /\ forall fuel rest,
       decodeEscapes (S fuel) (piece ++ rest) = String c (decodeEscapes fuel rest).
Proof.
  destruct c as [[] [] [] [] [] [] [] []]; (split; [reflexivity | intros; reflexivity]).
Qed.

Lemma encodeURIComponent_safe (s : string) :
  allChars isQuerySafe (encodeURIComponent s) = true.
Proof.
  induction s as [|c s IH]; [reflexivity|].
  cbn [encodeURIComponent]. rewrite allChars_app, IH.
  now destruct (encoded_byte c) as [-> _].
Qed.

Lemma decode_encode (s : string) :
  forall fuel, (String.length s <= fuel)%nat ->
               decodeEscapes fuel (encodeURIComponent s) = s.
Proof.
  induction s as [|c s IH]; intros fuel Hf.
  - destruct fuel; reflexivity.
  - destruct fuel as [|fuel]; [simpl in Hf; lia|].
    cbn [encodeURIComponent]. destruct (encoded_byte c) as [_ ->].
    rewrite IH; [reflexivity | simpl in Hf; lia].
Qed.

Lemma append_cancel_l (p a b : string) : p ++ a = p ++ b -> a = b.
Proof.
  induction p as [|c p IH]; simpl; [auto|]. intros [= H]. auto.
Qed.


